(** * Vector-space inspection helpers of the "curse of dimensionality" notebook

    A shallow embedding of the four helper functions the notebook defines,

      - [radius]          (Euclidean norm of a coordinate vector),
      - [in_sample_dist]  (histogram of pairwise distances),
      - [kde_cdf_plot]    (stacked KDE and cumulative histogram of the 'r' column),
      - [make_blob_df]    (blob generation, data frame and 'r' column),

    together with the slice of numpy, scipy, pandas and matplotlib they call.
    The library functions are written after their reference documentation.

    Numbers.  A numpy [float64] is an extended real: a finite value, one of
    the two infinities, or NaN.  Finite values are idealised as real numbers:
    there is no rounding, no overflow and no signed zero.

    Effects.  The plotting helpers draw on matplotlib's global figure state
    and [kde_cdf_plot] assigns to a column of the data frame object its
    caller passed in.  Both are threaded explicitly: a [world] holds the data
    frame object the parameter [df] is bound to and the list of drawing
    commands issued so far, and an exception leaves the world as it was at
    the point of the [raise]. *)

From Stdlib Require Import String Ascii DecimalString.
From Stdlib Require Import Reals Lra Lia ZArith Bool Arith List Sorted Permutation.
Import ListNotations.

Local Open Scope string_scope.
Local Open Scope list_scope.
Local Open Scope R_scope.

(** ** Python runtime: exceptions and results *)

Module Py.

(** The exception classes that occur: the two the notebook raises itself
    ([assert], [raise NotImplementedError]) and those the libraries
    answer bad arguments with.  Library messages are not modelled. *)
Inductive exn : Type :=
| AssertionError (msg : string)
| NotImplementedError (msg : string)
| ValueError
| TypeError
| KeyError.

Inductive result (A : Type) : Type :=
| Ok (a : A)
| Raise (e : exn).
Arguments Ok {A} a.
Arguments Raise {A} e.

Definition bind {A B : Type} (m : result A) (k : A -> result B) : result B :=
  match m with
  | Ok a => k a
  | Raise e => Raise e
  end.

(** [[f(x) for x in xs]], stopping at the first exception. *)
Fixpoint mapM {A B : Type} (f : A -> result B) (xs : list A) : result (list B) :=
  match xs with
  | [] => Ok []
  | x :: xs' => bind (f x) (fun y => bind (mapM f xs') (fun ys => Ok (y :: ys)))
  end.

(** ['x{}'.format(i)] and friends: the decimal rendering of an integer. *)
Definition str_of_nat (n : nat) : string := NilZero.string_of_uint (Nat.to_uint n).
Definition str_of_Z (z : Z) : string := NilZero.string_of_int (Z.to_int z).

End Py.
Export Py.

(** ** numpy *)

Module np.

Inductive float64 : Type :=
| Fin (x : R)
| PInf
| NInf
| NaN.

Definition neg (a : float64) : float64 :=
  match a with
  | Fin x => Fin (- x)
  | PInf => NInf
  | NInf => PInf
  | NaN => NaN
  end.

Definition add (a b : float64) : float64 :=
  match a, b with
  | NaN, _ | _, NaN => NaN
  | PInf, NInf | NInf, PInf => NaN
  | PInf, _ | _, PInf => PInf
  | NInf, _ | _, NInf => NInf
  | Fin x, Fin y => Fin (x + y)
  end.

Definition sub (a b : float64) : float64 := add a (neg b).

(** Sign of an extended real: [Some true] positive, [Some false] negative,
    [None] for zero and NaN. *)
Definition positive (a : float64) : option bool :=
  match a with
  | Fin x => if Rlt_dec 0 x then Some true
             else if Rlt_dec x 0 then Some false else None
  | PInf => Some true
  | NInf => Some false
  | NaN => None
  end.

Definition signed_inf (s1 s2 : option bool) : float64 :=
  match s1, s2 with
  | Some p, Some q => if eqb p q then PInf else NInf
  | _, _ => NaN
  end.

Definition mul (a b : float64) : float64 :=
  match a, b with
  | Fin x, Fin y => Fin (x * y)
  | NaN, _ | _, NaN => NaN
  | _, _ => signed_inf (positive a) (positive b)
  end.

(** True division on arrays does not raise: a zero divisor gives an
    infinity, or NaN for [0/0]. *)
Definition div (a b : float64) : float64 :=
  match a, b with
  | NaN, _ | _, NaN => NaN
  | Fin x, Fin y =>
      if Req_dec_T y 0 then signed_inf (positive a) (Some true) else Fin (x / y)
  | Fin _, _ => Fin 0
  | _, Fin y => signed_inf (positive a) (if Rlt_dec y 0 then Some false else Some true)
  | _, _ => NaN
  end.

Definition sqrt (a : float64) : float64 :=
  match a with
  | Fin x => if Rlt_dec x 0 then NaN else Fin (R_sqrt.sqrt x)
  | PInf => PInf
  | NInf | NaN => NaN
  end.

(** [x ** n] for a non-negative integer exponent. *)
Fixpoint power (a : float64) (n : nat) : float64 :=
  match n with
  | O => Fin 1
  | S n' => mul a (power a n')
  end.

(** [a > b]; every comparison with NaN is false. *)
Definition gt (a b : float64) : bool :=
  match a, b with
  | NaN, _ | _, NaN => false
  | Fin x, Fin y => if Rlt_dec y x then true else false
  | PInf, PInf => false
  | PInf, _ => true
  | _, PInf => false
  | NInf, _ => false
  | Fin _, NInf => true
  end.

Definition isnan (a : float64) : bool :=
  match a with NaN => true | _ => false end.

(** The finite entries of an array, or [None] when one is infinite or NaN. *)
Fixpoint finite (a : list float64) : option (list R) :=
  match a with
  | [] => Some []
  | Fin x :: a' => option_map (cons x) (finite a')
  | _ :: _ => None
  end.

(** [np.zeros(n)] *)
Definition zeros (n : nat) : list float64 := repeat (Fin 0) n.

(** A two-dimensional array of shape [(length rows, ncols)]. *)
Record ndarray : Type := mk_ndarray { ncols : nat; rows : list (list float64) }.

(** Elementwise binary operation on one-dimensional arrays, with numpy's
    broadcasting of a length-1 operand; other length mismatches raise. *)
Fixpoint zip_with (f : float64 -> float64 -> float64) (u v : list float64)
  : list float64 :=
  match u, v with
  | a :: u', b :: v' => f a b :: zip_with f u' v'
  | _, _ => []
  end.

Definition broadcast (f : float64 -> float64 -> float64) (u v : list float64)
  : result (list float64) :=
  if Nat.eqb (length u) (length v) then Ok (zip_with f u v)
  else match u, v with
       | [a], _ => Ok (map (f a) v)
       | _, [b] => Ok (map (fun a => f a b) u)
       | _, _ => Raise ValueError
       end.

Definition sum (a : list float64) : float64 := fold_left add a (Fin 0).

Definition dot (u v : list float64) : float64 := sum (zip_with mul u v).

(** [numpy.linalg.norm] of a vector: the square root of its dot square. *)
Definition norm (u : list float64) : float64 := sqrt (dot u u).

End np.

(** ** Python builtins *)

Module builtins.

(** [max(s)] over the values of a series: the first value, replaced by each
    later value that compares greater; a [ValueError] when there is none. *)
Fixpoint max_from (best : np.float64) (s : list np.float64) : np.float64 :=
  match s with
  | [] => best
  | x :: s' => max_from (if np.gt x best then x else best) s'
  end.

Definition max (s : list np.float64) : result np.float64 :=
  match s with
  | [] => Raise ValueError
  | x :: s' => Ok (max_from x s')
  end.

End builtins.

(** ** scipy.spatial.distance *)

Module spd.

Import np.

(** The entries a Python sequence handed to scipy may hold. *)
Inductive object : Type :=
| PyFloat (x : float64)
| PyStr (s : string)
| PyNone.

Definition numeric (o : object) : bool :=
  match o with PyFloat _ => true | _ => false end.

(** Conversion to a float array; [None] when an entry is not a number
    (the array then has a string or object dtype). *)
Fixpoint as_floats (v : list object) : option (list float64) :=
  match v with
  | [] => Some []
  | PyFloat x :: v' => option_map (cons x) (as_floats v')
  | _ :: _ => None
  end.

(** [spd.euclidean(u, v)]: the norm of [u - v].  Subtracting an array that
    is not numeric is a [TypeError]. *)
Definition euclidean (u : list float64) (v : list object) : result float64 :=
  match as_floats v with
  | None => Raise TypeError
  | Some v' => bind (broadcast sub u v') (fun d => Ok (norm d))
  end.

(** [spd.pdist(X)]: the condensed distance vector, the distances of the
    pairs [(i, j)], [i < j], in row-major order. *)
Fixpoint pdist_rows (X : list (list float64)) : list float64 :=
  match X with
  | [] => []
  | p :: rest => map (fun q => norm (zip_with sub p q)) rest ++ pdist_rows rest
  end.

Definition pdist (X : ndarray) : list float64 := pdist_rows (rows X).

End spd.
Export spd.

(** ** The radius calculator

<<
def radius(vector):
    origin = np.zeros(len(vector))
    return spd.euclidean(origin, vector)
>> *)

Definition radius (vector : list object) : result np.float64 :=
  let origin := np.zeros (length vector) in
  spd.euclidean origin vector.

(** ** numpy.histogram *)

Module histogram.

(** [a.min()] and [a.max()] of an array with first entry [x]. *)
Definition amin (x : R) (a : list R) : R := fold_left Rmin a x.
Definition amax (x : R) (a : list R) : R := fold_left Rmax a x.

(** The outer bin edges when no range is given: [(0, 1)] for an empty
    array, else the least and greatest entries, moved half a unit apart
    when they coincide. *)
Definition outer_edges (a : list R) : R * R :=
  let '(lo, hi) := match a with
                   | [] => (0, 1)
                   | x :: a' => (amin x a', amax x a')
                   end in
  if Req_dec_T lo hi then (lo - / 2, hi + / 2) else (lo, hi).

(** [np.linspace(lo, hi, b + 1)] *)
Definition linspace (lo hi : R) (b : nat) : list R :=
  map (fun i => lo + INR i * ((hi - lo) / INR b)) (seq 0 (S b)).

(** The bin of an entry: its offset scaled by [b / (hi - lo)] and cut to
    an integer, the right outer edge going to the last bin. *)
Definition bin_index (lo hi : R) (b : nat) (x : R) : nat :=
  let i := Z.to_nat (Int_part ((x - lo) * (INR b / (hi - lo)))) in
  if Nat.eqb i b then (b - 1)%nat else i.

(** One more occurrence of index [i]; the array grows when [i] is beyond
    its end, as [np.bincount] does. *)
Fixpoint bump (i : nat) (c : list nat) : list nat :=
  match i, c with
  | O, [] => [1%nat]
  | O, n :: c' => S n :: c'
  | S j, [] => O :: bump j []
  | S j, n :: c' => n :: bump j c'
  end.

(** [np.bincount(idx, minlength=b)] *)
Definition bincount (idx : list nat) (minlength : nat) : list nat :=
  fold_left (fun c i => bump i c) idx (repeat O minlength).

(** [np.histogram(a, bins)] for an integer [bins]: counts and edges.  A
    bin count below one, or an entry that is not finite, is a
    [ValueError]. *)
Definition histogram (a : list np.float64) (bins : Z)
  : result (list nat * list R) :=
  if (bins <? 1)%Z then Raise ValueError
  else match np.finite a with
       | None => Raise ValueError
       | Some xs =>
           let b := Z.to_nat bins in
           let '(lo, hi) := outer_edges xs in
           Ok (bincount (map (bin_index lo hi b) xs) b, linspace lo hi b)
       end.

(** [np.diff] and [np.cumsum] *)
Fixpoint diff (e : list R) : list R :=
  match e with
  | x :: (y :: _) as e' => (y - x) :: diff e'
  | _ => []
  end.

Fixpoint cumsum_from (acc : np.float64) (m : list np.float64) : list np.float64 :=
  match m with
  | [] => []
  | x :: m' => let acc' := np.add acc x in acc' :: cumsum_from acc' m'
  end.

Definition cumsum (m : list np.float64) : list np.float64 :=
  cumsum_from (np.Fin 0) m.

Definition total (counts : list nat) : nat := fold_right Nat.add O counts.

(** The heights matplotlib draws for counts over edges.  With [normed] the
    counts become a density, [n / db / n.sum()]; with [cumulative] the
    heights are running sums, of the density times the bin widths when
    normed. *)
Definition heights (counts : list nat) (edges : list R) (normed cumulative : bool)
  : list np.float64 :=
  let n := map (fun c => np.Fin (INR c)) counts in
  let db := map np.Fin (diff edges) in
  let m := if normed
           then map (fun x => np.div x (np.Fin (INR (total counts))))
                    (np.zip_with np.div n db)
           else n in
  if cumulative
  then (if normed then cumsum (np.zip_with np.mul m db) else cumsum m)
  else m.

End histogram.

(** ** pandas *)

Module pd.

(** A data frame: its number of rows and its columns in order, each a name
    and the values of the column. *)
Record DataFrame : Type :=
  mk_DataFrame { nrows : nat; columns : list (string * list np.float64) }.

(** ['name' in df] *)
Definition contains (name : string) (df : DataFrame) : bool :=
  existsb (fun c => String.eqb (fst c) name) (columns df).

Fixpoint lookup (name : string) (cols : list (string * list np.float64))
  : option (list np.float64) :=
  match cols with
  | [] => None
  | (k, s) :: cols' => if String.eqb k name then Some s else lookup name cols'
  end.

(** [df['name']] *)
Definition getitem (name : string) (df : DataFrame) : result (list np.float64) :=
  match lookup name (columns df) with
  | Some s => Ok s
  | None => Raise KeyError
  end.

Fixpoint assign (name : string) (s : list np.float64)
  (cols : list (string * list np.float64)) : list (string * list np.float64) :=
  match cols with
  | [] => [(name, s)]
  | (k, old) :: cols' =>
      if String.eqb k name then (k, s) :: cols' else (k, old) :: assign name s cols'
  end.

(** [df['name'] = s]: the column is replaced where it stands, or appended. *)
Definition setitem (name : string) (s : list np.float64) (df : DataFrame) : DataFrame :=
  mk_DataFrame (nrows df) (assign name s (columns df)).

(** [df.shape[1]] *)
Definition width (df : DataFrame) : nat := length (columns df).

(** [pd.DataFrame(X, columns=names)] *)
Definition from_array (X : np.ndarray) (names : list string) : result DataFrame :=
  if Nat.eqb (length names) (np.ncols X)
  then Ok (mk_DataFrame (length (np.rows X))
             (map (fun jn => (snd jn, map (fun row => nth (fst jn) row np.NaN) (np.rows X)))
                  (combine (seq 0 (np.ncols X)) names)))
  else Raise ValueError.

(** Row [i] of the frame, as the sequence handed to a row function. *)
Definition row (df : DataFrame) (i : nat) : list object :=
  map (fun c => PyFloat (nth i (snd c) np.NaN)) (columns df).

(** [df.apply(f, axis=1)] *)
Definition apply_rows (f : list object -> result np.float64) (df : DataFrame)
  : result (list np.float64) :=
  mapM f (map (row df) (seq 0 (nrows df))).

(** [copy.deepcopy(df)]: a new object with the same contents. *)
Definition deepcopy (df : DataFrame) : DataFrame := df.

(** [s.dropna()], which the histogram plot applies to its values. *)
Definition dropna (s : list np.float64) : list np.float64 :=
  filter (fun x => negb (np.isnan x)) s.

End pd.

(** ** matplotlib.pyplot and seaborn: drawing commands *)

Module plt.

(** Where a command draws: one of the two stacked subplots, or the
    current axes for the [plt.*] functions. *)
Inductive axes : Type := ax1 | ax2 | gca.

(** The drawing commands the helpers issue.  Styling keywords (alpha,
    line width, histogram type) are not recorded.  [kde_rug] is seaborn's
    [distplot(..., hist=False, rug=True)]: the density curve is seaborn's
    own computation and is recorded by the data it is drawn from. *)
Inductive command : Type :=
| figure (w h : Z)
| subplots (nrows ncols : nat) (sharex : bool) (w h : Z)
| hist (ax : axes) (edges : list R) (heights : list np.float64)
| kde_rug (ax : axes) (data : list np.float64)
| xlabel (ax : axes) (s : string)
| ylabel (ax : axes) (s : string)
| title (ax : axes) (s : string)
| xlim (ax : axes) (lo hi : np.float64).

Definition is_hist (c : command) : bool :=
  match c with hist _ _ _ => true | _ => false end.

End plt.

(** ** The world a plotting helper runs in *)

Record world : Type :=
  mk_world { frame : pd.DataFrame; canvas : list plt.command }.

(** A statement: from a world to a result and the world it leaves. *)
Definition M (A : Type) : Type := world -> result A * world.

Definition ret {A : Type} (a : A) : M A := fun w => (Ok a, w).

Definition raise {A : Type} (e : exn) : M A := fun w => (Raise e, w).

Definition seq_bind {A B : Type} (m : M A) (k : A -> M B) : M B :=
  fun w => match m w with
           | (Ok a, w') => k a w'
           | (Raise e, w') => (Raise e, w')
           end.

Definition lift {A : Type} (r : result A) : M A := fun w => (r, w).

Declare Scope py_scope.
Delimit Scope py_scope with py.
Notation "x <- m ;; k" := (seq_bind m (fun x => k))
  (at level 61, m at next level, right associativity) : py_scope.
Notation "m ;; k" := (seq_bind m (fun _ => k))
  (at level 61, right associativity) : py_scope.

Declare Scope res_scope.
Delimit Scope res_scope with res.
Notation "x <- m ;; k" := (Py.bind m (fun x => k))
  (at level 61, m at next level, right associativity) : res_scope.

(** The data frame object [df] names, read and assigned in place. *)
Definition df : M pd.DataFrame := fun w => (Ok (frame w), w).

Definition df_setitem (name : string) (s : list np.float64) : M unit :=
  fun w => (Ok tt, mk_world (pd.setitem name s (frame w)) (canvas w)).

Definition draw (c : plt.command) : M unit :=
  fun w => (Ok tt, mk_world (frame w) (canvas w ++ [c])).

(** [assert cond, msg] *)
Definition assert (cond : bool) (msg : string) : M unit :=
  if cond then ret tt else raise (AssertionError msg).

(** [ax.hist(x, bins=n)] with an integer bin count: bin with
    [np.histogram], draw the heights.  An empty sample is binned as numpy
    bins it, with zero counts over [(0, 1)]. *)
Definition ax_hist (ax : plt.axes) (x : list np.float64) (bins : Z)
  (normed cumulative : bool) : M unit :=
  (ce <- lift (histogram.histogram x bins) ;;
   draw (plt.hist ax (snd ce) (histogram.heights (fst ce) (snd ce) normed cumulative)))%py.

(** [s.plot(kind='hist', cumulative=True, normed=1, bins=n, ax=ax)]: pandas
    drops the missing values, fixes the bin edges with [np.histogram] and has
    the axes draw the histogram of the same values over these edges. *)
Definition series_plot_hist (s : list np.float64) (bins : Z) (ax : plt.axes)
  (normed cumulative : bool) : M unit :=
  ax_hist ax (pd.dropna s) bins normed cumulative.

(** ** The pairwise-distance histogram

<<
def in_sample_dist(X, n):
    plt.figure(figsize=(15,6))
    plt.hist(spd.pdist(X), bins=n, alpha=0.6)
    plt.xlabel('inter-sample distance')
    plt.ylabel('count')
>> *)

Definition in_sample_dist (X : np.ndarray) (n : Z) : M unit :=
  (draw (plt.figure 15 6) ;;
   ax_hist plt.gca (spd.pdist X) n false false ;;
   draw (plt.xlabel plt.gca "inter-sample distance") ;;
   draw (plt.ylabel plt.gca "count"))%py.

(** ** The density and cumulative profile

<<
def kde_cdf_plot(df, norm=False, vol=False):
    assert 'r' in df, 'This method only works for ...'
    if norm:
        # overwrite df.r with normalized version
        df['r'] = df['r'] / max(df['r'])
    fig, (ax1, ax2) = plt.subplots(2,1, sharex=True, figsize=(15,8))
    sns.distplot(df['r'], hist=False, rug=True, ax=ax1)
    ax1.set_ylabel('KDE')
    ax1.set_title('n={} in {}-d space'.format(len(df), df.shape[1] - 1))
    if vol:
        raise NotImplementedError("Didn't finish implementing ...")
        dim = df.shape[1] - 1
        df['r'].apply(lambda x: x**dim).plot(kind='hist', cumulative=True,
                                             normed=1, bins=len(df['r']), ax=ax2)
        ax2.set_ylabel('CDF')
        plt.xlim(0, .99*max(df['r'])**dim)
        xlab = 'volume fraction'
    else:
        df['r'].plot(kind='hist', cumulative=True, normed=1,
                     bins=len(df['r']), ax=ax2)
        ax2.set_ylabel('CDF')
        plt.xlim(0, .99*max(df['r']))
        xlab = 'radial distance'
    if norm:
        xlab += ' (%)'
    plt.xlabel(xlab)
>> *)

Definition dquote : string := String (Ascii.ascii_of_nat 34) EmptyString.

Definition assert_msg : string :=
  ("This method only works for dataframes that include a radial distance in an "
   ++ dquote ++ "r" ++ dquote ++ " column!")%string.

Definition vol_msg : string :=
  "Didn't finish implementing this volume normalization!".

(** The subplot title, ['n={} in {}-d space'.format(len(df), df.shape[1] - 1)]. *)
Definition title_text (d : pd.DataFrame) : string :=
  ("n=" ++ str_of_nat (pd.nrows d) ++ " in "
   ++ str_of_Z (Z.of_nat (pd.width d) - 1) ++ "-d space")%string.

(** [if norm:] the assignment to the 'r' column. *)
Definition normalize_r : M unit :=
  (d <- df ;;
   r <- lift (pd.getitem "r" d) ;;
   m <- lift (builtins.max r) ;;
   df_setitem "r" (map (fun x => np.div x m) r))%py.

(** The [if vol:] branch: the [raise] and the statements after it. *)
Definition volume_branch : M string :=
  (raise (A := unit) (NotImplementedError vol_msg) ;;
   d <- df ;;
   let dim := Z.to_nat (Z.of_nat (pd.width d) - 1) in
   r <- lift (pd.getitem "r" d) ;;
   series_plot_hist (map (fun x => np.power x dim) r)
                    (Z.of_nat (length r)) plt.ax2 true true ;;
   draw (plt.ylabel plt.ax2 "CDF") ;;
   m <- lift (builtins.max r) ;;
   draw (plt.xlim plt.gca (np.Fin 0) (np.mul (np.Fin (99 / 100)) (np.power m dim))) ;;
   ret "volume fraction")%py.

(** The [else:] branch. *)
Definition radial_branch : M string :=
  (d <- df ;;
   r <- lift (pd.getitem "r" d) ;;
   series_plot_hist r (Z.of_nat (length r)) plt.ax2 true true ;;
   draw (plt.ylabel plt.ax2 "CDF") ;;
   m <- lift (builtins.max r) ;;
   draw (plt.xlim plt.gca (np.Fin 0) (np.mul (np.Fin (99 / 100)) m)) ;;
   ret "radial distance")%py.

Definition kde_cdf_plot (norm vol : bool) : M unit :=
  (d <- df ;;
   assert (pd.contains "r" d) assert_msg ;;
   (if norm then normalize_r else ret tt) ;;
   draw (plt.subplots 2 1 true 15 8) ;;
   d <- df ;;
   r <- lift (pd.getitem "r" d) ;;
   draw (plt.kde_rug plt.ax1 r) ;;
   draw (plt.ylabel plt.ax1 "KDE") ;;
   draw (plt.title plt.ax1 (title_text d)) ;;
   xlab <- (if vol then volume_branch else radial_branch) ;;
   let xlab := if norm then (xlab ++ " (%)")%string else xlab in
   draw (plt.xlabel plt.gca xlab))%py.

(** The statements of [kde_cdf_plot] from [plt.subplots] on, named for the
    proofs: [kde_cdf_plot] is the assertion, the normalisation and these. *)
Definition plot_body (norm vol : bool) : M unit :=
  (draw (plt.subplots 2 1 true 15 8) ;;
   d <- df ;;
   r <- lift (pd.getitem "r" d) ;;
   draw (plt.kde_rug plt.ax1 r) ;;
   draw (plt.ylabel plt.ax1 "KDE") ;;
   draw (plt.title plt.ax1 (title_text d)) ;;
   xlab <- (if vol then volume_branch else radial_branch) ;;
   let xlab := if norm then (xlab ++ " (%)")%string else xlab in
   draw (plt.xlabel plt.gca xlab))%py.

(** ** The blob generator adapter

<<
def make_blob_df(n_points=1000, dims=2, blobs=5, bounding_box=(-10.0, 10.0)):
    X, y = make_blobs(n_samples=n_points, n_features=dims, centers=blobs,
                      center_box=bounding_box)
    X_df = pd.DataFrame(X, columns=['x{}'.format(i) for i in range(X.shape[1])])
    X_df_no_r = copy.deepcopy(X_df)
    X_df['r'] = X_df.apply(radius, axis=1)
    return X, X_df, X_df_no_r, y
>>

    [make_blobs] is scikit-learn's generator.  It draws from numpy's global
    random state, which the notebook never seeds: the adapter takes the
    generator as a parameter, together with the random state [g] it runs
    in. *)

Definition column_names (X : np.ndarray) : list string :=
  map (fun i => ("x" ++ str_of_nat i)%string) (seq 0 (np.ncols X)).

Definition make_blob_df {G : Type}
  (make_blobs : G -> nat -> nat -> nat -> R * R -> result (np.ndarray * list nat))
  (g : G) (n_points dims blobs : nat) (bounding_box : R * R)
  : result (np.ndarray * pd.DataFrame * pd.DataFrame * list nat) :=
  (Xy <- make_blobs g n_points dims blobs bounding_box ;;
   let X := fst Xy in
   let y := snd Xy in
   X_df <- pd.from_array X (column_names X) ;;
   let X_df_no_r := pd.deepcopy X_df in
   r <- pd.apply_rows radius X_df ;;
   let X_df := pd.setitem "r" r X_df in
   Ok (X, X_df, X_df_no_r, y))%res.

(** ** Notions the statements are phrased with *)

(** A coordinate vector of finite numbers, as the sequence [radius] receives. *)
Definition numeric_vector (v : list R) : list object :=
  map (fun x => PyFloat (np.Fin x)) v.

(** The Euclidean norm in the words of the specification: the square root of
    the sum of the squared components. *)
Definition sum_sq (v : list R) : R := fold_right (fun x acc => x * x + acc) 0 v.

Definition euclidean_norm (v : list R) : R := sqrt (sum_sq v).

(** Running sums of real numbers, the finite counterpart of [np.cumsum]. *)
Fixpoint running (acc : R) (l : list R) : list R :=
  match l with
  | [] => []
  | x :: l' => (acc + x) :: running (acc + x) l'
  end.

(** The number of entries of [a] binned at or below bin [i]. *)
Definition binned_upto (lo hi : R) (b : nat) (a : list R) (i : nat) : nat :=
  length (filter (fun x => (histogram.bin_index lo hi b x <=? i)%nat) a).

(** A data set given by finite coordinates, as an array with [d] columns. *)
Definition points (d : nat) (P : list (list R)) : np.ndarray :=
  np.mk_ndarray d (map (map np.Fin) P).

(** The Euclidean distance of two points and the distances of all pairs
    [(i, j)], [i < j], of a list of points. *)
Definition distance (p q : list R) : R :=
  euclidean_norm (map (fun c => fst c - snd c) (combine p q)).

Fixpoint pairwise (P : list (list R)) : list R :=
  match P with
  | [] => []
  | p :: rest => map (distance p) rest ++ pairwise rest
  end.

(** The least and the greatest entry of an array. *)
Definition least (a : list R) : R :=
  match a with [] => 0 | x :: a' => histogram.amin x a' end.

Definition greatest (a : list R) : R :=
  match a with [] => 0 | x :: a' => histogram.amax x a' end.

(** The commands [kde_cdf_plot] issues before it reaches the branch on
    [vol], over the radii [r] of a frame [d]. *)
Definition kde_commands (d : pd.DataFrame) (r : list np.float64) : list plt.command :=
  [ plt.subplots 2 1 true 15 8;
    plt.kde_rug plt.ax1 r;
    plt.ylabel plt.ax1 "KDE";
    plt.title plt.ax1 (title_text d) ].

(** The bin counts and edges of the cumulative histogram of finite radii,
    one bin per radius. *)
Definition cdf_counts (a : list R) : list nat :=
  let b := length a in
  let lo := fst (histogram.outer_edges a) in
  let hi := snd (histogram.outer_edges a) in
  histogram.bincount (map (histogram.bin_index lo hi b) a) b.

Definition cdf_edges (a : list R) : list R :=
  histogram.linspace (fst (histogram.outer_edges a)) (snd (histogram.outer_edges a))
                     (length a).

(** The commands of a complete run with [vol] off over the finite radii [a]
    of a frame [d], the x axis labelled [xlab]. *)
Definition radial_commands (d : pd.DataFrame) (a : list R) (xlab : string)
  : list plt.command :=
  kde_commands d (map np.Fin a)
  ++ [ plt.hist plt.ax2 (cdf_edges a)
         (histogram.heights (cdf_counts a) (cdf_edges a) true true);
       plt.ylabel plt.ax2 "CDF";
       plt.xlim plt.gca (np.Fin 0) (np.Fin (99 / 100 * greatest a));
       plt.xlabel plt.gca xlab ].

(** The cumulative distribution drawn for finite radii: the running sums of
    the bins' shares. *)
Definition cdf_values (a : list R) : list R :=
  running 0 (map (fun c => INR c / INR (histogram.total (cdf_counts a))) (cdf_counts a)).

(** The x axis label of a complete run. *)
Definition radial_label (norm : bool) : string :=
  if norm then "radial distance (%)" else "radial distance".

(** The 'r' column after [df['r'] = df['r'] / max(df['r'])]. *)
Definition normalized (s : list np.float64) : list np.float64 :=
  match s with
  | [] => []
  | y :: s' => map (fun x => np.div x (builtins.max_from y s')) s
  end.

(** The share of the entries of [a] that are at most [x]: the cumulative
    distribution in the words of the specification. *)
Definition fraction_le (a : list R) (x : R) : R :=
  INR (length (filter (fun v => if Rle_dec v x then true else false) a))
  / INR (length a).

(** The height of the drawn cumulative histogram over the bin of [x]. *)
Definition cdf_at (a : list R) (x : R) : R :=
  nth (histogram.bin_index (fst (histogram.outer_edges a)) (snd (histogram.outer_edges a))
                           (length a) x)
      (cdf_values a) 0.

(** A statement whose exceptions all satisfy [P]. *)
Definition raises_only {A : Type} (P : exn -> Prop) (m : M A) : Prop :=
  forall w e, fst (m w) = Raise e -> P e.

(** The exceptions that can come after the assertion of [kde_cdf_plot]. *)
Definition later_error (e : exn) : Prop :=
  e = ValueError \/ e = KeyError \/ e = NotImplementedError vol_msg.

(** Sample inputs: a world with nothing drawn yet, and a few small frames. *)
Definition blank (d : pd.DataFrame) : world := mk_world d [].

(** The points (3, 4) and (0, 2) with their radii. *)
Definition two_points : pd.DataFrame :=
  pd.mk_DataFrame 2
    [ ("x0", [np.Fin 3; np.Fin 0]); ("x1", [np.Fin 4; np.Fin 2]);
      ("r", [np.Fin 5; np.Fin 2]) ].

(** The same points without the radius column. *)
Definition two_points_no_r : pd.DataFrame :=
  pd.mk_DataFrame 2 [ ("x0", [np.Fin 3; np.Fin 0]); ("x1", [np.Fin 4; np.Fin 2]) ].

(** A single point at the origin. *)
Definition origin_only : pd.DataFrame :=
  pd.mk_DataFrame 1 [ ("x0", [np.Fin 0]); ("r", [np.Fin 0]) ].

(** A frame with an 'r' column and no rows. *)
Definition no_rows : pd.DataFrame := pd.mk_DataFrame 0 [ ("r", []) ].

(** Three points on a line, at 0, 2 and 3. *)
Definition on_a_line : pd.DataFrame :=
  pd.mk_DataFrame 3 [ ("x0", [np.Fin 0; np.Fin 2; np.Fin 3]);
                      ("r", [np.Fin 0; np.Fin 2; np.Fin 3]) ].

(** The one-dimensional point set {[0], [1], [2], [3]}. *)
Definition four_points : list (list R) := [[0]; [1]; [2]; [3]].

(** What scikit-learn documents of [make_blobs] for positive counts: it
    returns the samples, an array of shape [(n_samples, n_features)], and
    the integer label of the cluster each sample belongs to, one of
    [0 .. centers - 1]. *)
Definition make_blobs_contract {G : Type}
  (make_blobs : G -> nat -> nat -> nat -> R * R -> result (np.ndarray * list nat)) : Prop :=
  forall (g : G) (n d k : nat) (box : R * R),
    (1 <= n)%nat -> (1 <= d)%nat -> (1 <= k)%nat ->
    exists X y,
      make_blobs g n d k box = Ok (X, y)
      /\ length (np.rows X) = n
      /\ np.ncols X = d
      /\ Forall (fun p => length p = d) (np.rows X)
      /\ length y = n
      /\ Forall (fun l => (l < k)%nat) y.

(** A generator without randomness that meets the contract: cluster [c] is
    centred at the fraction [(c + 1) / (k + 1)] of the box in every
    coordinate, the samples sit on their centres and the labels are dealt
    in turn. *)
Definition grid_blobs (g : unit) (n d k : nat) (box : R * R)
  : result (np.ndarray * list nat) :=
  let center c :=
    repeat (np.Fin (fst box + (snd box - fst box) * INR (S c) / INR (S k))) d in
  let y := map (fun i => Nat.modulo i k) (seq 0 n) in
  Ok (np.mk_ndarray d (map center y), y).

(** A statement that leaves the data frame as it found it, whatever its
    outcome. *)
Definition keeps_frame {A : Type} (m : M A) : Prop :=
  forall w, frame (snd (m w)) = frame w.

(** * The interfaces notebook

    The classes of the first notebook that compute something: [Dog] and
    [Cat], the two lists of things, [DoppelDict] and the [Vector] of "Fluent
    Python"; and, from the vector-space notebook, the two inline
    computations of radii besides [make_blob_df]. *)

Module interfaces.

(** The exceptions of these classes. *)
Inductive error : Type :=
| TypeError
| ValueError
| IndexError
| KeyError (key : string)
| AttributeError (name : string).

Inductive outcome (A : Type) : Type :=
| Return (a : A)
| Throw (e : error).
Arguments Return {A} a.
Arguments Throw {A} e.

Definition and_then {A B : Type} (m : outcome A) (k : A -> outcome B) : outcome B :=
  match m with
  | Return a => k a
  | Throw e => Throw e
  end.

(** [l[i]] on a list or an array: a negative index counts from the end, an
    index outside the sequence is an [IndexError]. *)
Definition getitem {A : Type} (l : list A) (i : Z) : outcome A :=
  let n := Z.of_nat (length l) in
  let j := if (i <? 0)%Z then (i + n)%Z else i in
  if ((j <? 0) || (n <=? j))%Z then Throw IndexError
  else match nth_error l (Z.to_nat j) with
       | Some a => Return a
       | None => Throw IndexError
       end.

(** [round(x)] of a float: the nearest integer, a tie going to the even
    one. *)
Definition round (x : R) : Z :=
  let f := Int_part x in
  let d := x - IZR f in
  if Rlt_dec d (/ 2) then f
  else if Rlt_dec (/ 2) d then (f + 1)%Z
       else if Z.even f then f else (f + 1)%Z.

(** [sorted(l)] on integers: the stable ascending sort, built by insertion. *)
Fixpoint insert (x : Z) (l : list Z) : list Z :=
  match l with
  | [] => [x]
  | y :: l' => if (x <=? y)%Z then x :: l else y :: insert x l'
  end.

Fixpoint sorted (l : list Z) : list Z :=
  match l with
  | [] => []
  | x :: l' => insert x (sorted l')
  end.

(** [a == b] on floats: NaN equals nothing, itself included. *)
Definition float_eq (a b : np.float64) : bool :=
  match a, b with
  | np.Fin x, np.Fin y => if Req_dec_T x y then true else false
  | np.PInf, np.PInf | np.NInf, np.NInf => true
  | _, _ => false
  end.

(** [math.sqrt(a)]: a negative argument is a [ValueError]. *)
Definition math_sqrt (a : np.float64) : outcome np.float64 :=
  match a with
  | np.Fin x => if Rlt_dec x 0 then Throw ValueError else Return (np.Fin (sqrt x))
  | np.PInf => Return np.PInf
  | np.NInf => Throw ValueError
  | np.NaN => Return np.NaN
  end.

(** [s.find(sub)]: the first position of [sub] in [s], or -1. *)
Definition find (s sub : string) : Z :=
  match String.index 0 sub s with
  | Some p => Z.of_nat p
  | None => (-1)%Z
  end.

(** A slice [start:stop:step], each part optional, and the positions it
    selects in a sequence of length [len]: first position, step and number
    of positions, as Python adjusts them. *)
Record slice : Type := mk_slice { start : option Z; stop : option Z; step : option Z }.

Definition adjust (len st v : Z) : Z :=
  if (v <? 0)%Z
  then (if (v + len <? 0)%Z then (if (st <? 0)%Z then -1 else 0) else v + len)%Z
  else if (len <=? v)%Z then (if (st <? 0)%Z then len - 1 else len)%Z else v.

Definition indices (s : slice) (len : Z) : outcome (Z * Z * Z) :=
  let st := match step s with Some v => v | None => 1%Z end in
  if (st =? 0)%Z then Throw ValueError
  else
    let a := match start s with
             | Some v => adjust len st v
             | None => if (st <? 0)%Z then (len - 1)%Z else 0%Z
             end in
    let b := match stop s with
             | Some v => adjust len st v
             | None => if (st <? 0)%Z then (-1)%Z else len
             end in
    let count := if (st <? 0)%Z
                 then (if (b <? a)%Z then (a - b - 1) / (- st) + 1 else 0)%Z
                 else (if (a <? b)%Z then (b - a - 1) / st + 1 else 0)%Z in
    Return (a, st, count).

(** The entries at the selected positions. *)
Definition select {A : Type} (l : list A) (a st count : Z) : list A :=
  flat_map (fun k => match nth_error l (Z.to_nat (a + Z.of_nat k * st)) with
                     | Some x => [x]
                     | None => []
                     end)
           (seq 0 (Z.to_nat count)).

End interfaces.

(** ** Pets

<<
class Cat(Pet):
    def make_a_sound(self):
        return "Meow"
class Dog(Pet):
    def make_a_sound(self):
        sounds = ['Arf','Grrrrrr']
        return sounds[round(random.random())]
>>

    The draw of [random.random()], a float in [0, 1), is the parameter [u]. *)

Module Cat.
Definition make_a_sound : string := "Meow".
End Cat.

Module Dog.
Definition make_a_sound (u : R) : interfaces.outcome string :=
  let sounds := ["Arf"; "Grrrrrr"] in
  interfaces.getitem sounds (interfaces.round u).
End Dog.

(** ** Lists of things

<<
class ListOfThings:
    def __init__(self,x):
        self.things = x
    def get_the_things(self):
        return self.things

class OrderedListOfThings(ListOfThings):
    def get_the_things(self):
        return sorted(self.things)
>>

    The things are integers, as in the notebook. *)

Module ListOfThings.
Record t : Type := __init__ { things : list Z }.
Definition get_the_things (self : t) : list Z := things self.
End ListOfThings.

Module OrderedListOfThings.
Definition get_the_things (self : ListOfThings.t) : list Z :=
  interfaces.sorted (ListOfThings.things self).
End OrderedListOfThings.

(** ** A dictionary that doubles what is assigned

<<
class DoppelDict(dict):
    def __setitem__(self, key, value):
        super().__setitem__(key, [value] * 2)

dd = DoppelDict(one=1)
dd['two'] = 2
>>

    The constructor is [dict]'s own, which stores its keyword arguments
    without calling the overridden [__setitem__]: the notebook shows
    [{'one': 1, 'two': [2, 2]}]. *)

Module DoppelDict.

#[warnings="-register-all"]
Inductive value : Type :=
| Int (z : Z)
| List (items : list value).

(** The number of integers and lists a value is made of. *)
Fixpoint size (v : value) : nat :=
  match v with
  | Int _ => 1
  | List items => S (list_sum (map size items))
  end.

Definition t : Type := list (string * value).

(** [dict.__setitem__]: the value of a present key is replaced, a new key
    is added. *)
Fixpoint dict_setitem (key : string) (v : value) (d : t) : t :=
  match d with
  | [] => [(key, v)]
  | (k, old) :: d' =>
      if String.eqb k key then (k, v) :: d' else (k, old) :: dict_setitem key v d'
  end.

(** [d[key]] *)
Fixpoint __getitem__ (d : t) (key : string) : interfaces.outcome value :=
  match d with
  | [] => interfaces.Throw (interfaces.KeyError key)
  | (k, v) :: d' => if String.eqb k key then interfaces.Return v else __getitem__ d' key
  end.

(** [DoppelDict(key=value, ...)] *)
Definition __init__ (kwargs : list (string * value)) : t :=
  fold_left (fun d kv => dict_setitem (fst kv) (snd kv) d) kwargs [].

(** [d[key] = value] *)
Definition __setitem__ (self : t) (key : string) (v : value) : t :=
  dict_setitem key (List (repeat v 2)) self.

End DoppelDict.

(** ** The vector of "Fluent Python"

<<
class Vector:
    typecode = 'd'
    def __init__(self, components):
        self._components = array(self.typecode, components)
    def __eq__(self, other):
        return (len(self) == len(other) and
                all(a == b for a, b in zip(self, other)))
    def __hash__(self):
        hashes = (hash(x) for x in self)
        return functools.reduce(operator.xor, hashes, 0)
    def __abs__(self):
        return math.sqrt(sum(x * x for x in self))
    def __bool__(self):
        return bool(abs(self))
    def __len__(self):
        return len(self._components)
    def __getitem__(self, index):
        cls = type(self)
        if isinstance(index, slice):
            return cls(self._components[index])
        elif isinstance(index, numbers.Integral): return self._components[index]
        else:
            msg = '{.__name__} indices must be integers'
            raise TypeError(msg.format(cls))
    shortcut_names = 'xyzt'
    def __getattr__(self, name):
        cls = type(self)
        if len(name) == 1:
            pos = cls.shortcut_names.find(name)
            if 0 <= pos < len(self._components):
                return self._components[pos]
        msg = '{.__name__!r} object has no attribute {!r}'
        raise AttributeError(msg.format(cls, name))
>>

    The hash of a float is Python's; it is the parameter [hash]. *)

Module Vector.

Import interfaces.

Record t : Type := mk { _components : list np.float64 }.

(** [array('d', components)] wants numbers. *)
Definition __init__ (components : list object) : outcome t :=
  match spd.as_floats components with
  | Some xs => Return (mk xs)
  | None => Throw TypeError
  end.

Definition __iter__ (self : t) : list np.float64 := _components self.

Definition __len__ (self : t) : nat := length (_components self).

(** [other] is any sized iterable of floats, a [Vector] or not. *)
Definition __eq__ (self : t) (other : list np.float64) : bool :=
  Nat.eqb (__len__ self) (length other)
  && forallb (fun ab => float_eq (fst ab) (snd ab)) (combine (__iter__ self) other).

Definition __hash__ (hash : np.float64 -> Z) (self : t) : Z :=
  fold_left Z.lxor (map hash (__iter__ self)) 0%Z.

Definition __abs__ (self : t) : outcome np.float64 :=
  math_sqrt (fold_left np.add (map (fun x => np.mul x x) (__iter__ self)) (np.Fin 0)).

(** [bool(x)] of a float is [x != 0.0]. *)
Definition __bool__ (self : t) : outcome bool :=
  and_then (__abs__ self) (fun a => Return (negb (float_eq a (np.Fin 0)))).

(** What stands between the brackets, and what comes back. *)
Inductive index : Type :=
| Integral (i : Z)
| Slice (s : slice)
| Other.

Inductive item : Type :=
| Component (x : np.float64)
| Sub (v : t).

Definition __getitem__ (self : t) (i : index) : outcome item :=
  match i with
  | Slice s =>
      and_then (indices s (Z.of_nat (length (_components self))))
               (fun p => let '(a, st, count) := p in
                         Return (Sub (mk (select (_components self) a st count))))
  | Integral i => and_then (getitem (_components self) i) (fun x => Return (Component x))
  | Other => Throw TypeError
  end.

Definition shortcut_names : string := "xyzt".

Definition __getattr__ (self : t) (name : string) : outcome np.float64 :=
  if Nat.eqb (String.length name) 1
  then let pos := find shortcut_names name in
       if ((0 <=? pos) && (pos <? Z.of_nat (length (_components self))))%Z
       then getitem (_components self) pos
       else Throw (AttributeError name)
  else Throw (AttributeError name).

End Vector.

(** ** Radii computed in the cells of the vector-space notebook

<<
df['r'] = df.apply(radius, axis=1)

dtm_r = dtm.multiply(dtm).sum(axis=1).A1**0.5
>> *)

(** The first assignment, on a frame [d]. *)
Definition add_radius_column (d : pd.DataFrame) : result pd.DataFrame :=
  (r <- pd.apply_rows radius d ;; Ok (pd.setitem "r" r d))%res.

(** [x ** 0.5] *)
Definition power_half (x : np.float64) : np.float64 :=
  match x with
  | np.Fin v => if Rlt_dec v 0 then np.NaN else np.Fin (sqrt v)
  | np.PInf | np.NInf => np.PInf
  | np.NaN => np.NaN
  end.

(** The second, on the rows of the document-term matrix. *)
Definition dtm_r (dtm : list (list np.float64)) : list np.float64 :=
  map (fun row => power_half (np.sum (np.zip_with np.mul row row))) dtm.

(** * Properties *)

(** ** Arithmetic on finite values *)

Lemma sum_finite (l : list R) (a : R) :
  fold_left np.add (map np.Fin l) (np.Fin a) = np.Fin (a + fold_right Rplus 0 l).
Proof.
  revert a. induction l as [|x l IH]; intros a; simpl.
  - f_equal. lra.
  - rewrite IH. f_equal. lra.
Qed.

Lemma zip_with_finite (f : np.float64 -> np.float64 -> np.float64) (g : R -> R -> R) :
  (forall x y, f (np.Fin x) (np.Fin y) = np.Fin (g x y)) ->
  forall u v,
    np.zip_with f (map np.Fin u) (map np.Fin v)
    = map np.Fin (map (fun p => g (fst p) (snd p)) (combine u v)).
Proof.
  intros Hf. induction u as [|a u IH]; intros [|b v]; simpl; try reflexivity.
  now rewrite Hf, IH.
Qed.

Lemma sum_sq_fold (l : list R) :
  fold_right Rplus 0 (map (fun p => fst p * snd p) (combine l l)) = sum_sq l.
Proof.
  induction l as [|x l IH]; simpl; [reflexivity|]. now rewrite IH.
Qed.

Lemma sum_sq_nonneg (l : list R) : 0 <= sum_sq l.
Proof.
  induction l as [|x l IH]; simpl; [lra|]. nra.
Qed.

Lemma norm_finite (l : list R) :
  np.norm (map np.Fin l) = np.Fin (euclidean_norm l).
Proof.
  unfold np.norm, np.dot, np.sum.
  rewrite (zip_with_finite np.mul Rmult) by reflexivity.
  rewrite sum_finite, sum_sq_fold, Rplus_0_l. unfold np.sqrt.
  destruct (Rlt_dec (sum_sq l) 0) as [H|_]; [|reflexivity].
  pose proof (sum_sq_nonneg l). lra.
Qed.

Lemma as_floats_numeric (v : list R) :
  spd.as_floats (numeric_vector v) = Some (map np.Fin v).
Proof.
  induction v as [|x v IH]; simpl; [reflexivity|]. now rewrite IH.
Qed.

Lemma origin_minus (v : list R) :
  np.zip_with np.sub (np.zeros (length v)) (map np.Fin v) = map np.Fin (map Ropp v).
Proof.
  induction v as [|x v IH]; simpl; [reflexivity|].
  unfold np.zeros in IH. rewrite IH. do 2 f_equal. lra.
Qed.

Lemma sum_sq_opp (v : list R) : sum_sq (map Ropp v) = sum_sq v.
Proof.
  induction v as [|x v IH]; simpl; [reflexivity|]. rewrite IH. lra.
Qed.

Lemma radius_numeric (v : list R) :
  radius (numeric_vector v) = Ok (np.Fin (euclidean_norm v)).
Proof.
  unfold radius, spd.euclidean. rewrite as_floats_numeric.
  unfold np.broadcast, numeric_vector, np.zeros.
  rewrite repeat_length, !length_map, Nat.eqb_refl. simpl.
  pose proof (origin_minus v) as H. unfold np.zeros in H.
  rewrite H, norm_finite. unfold euclidean_norm.
  now rewrite sum_sq_opp.
Qed.

Lemma sum_sq_zeros (d : nat) : sum_sq (repeat 0 d) = 0.
Proof.
  induction d as [|d IH]; simpl; [reflexivity|]. rewrite IH. lra.
Qed.

(** C1.  On every vector of finite numbers [radius] returns the Euclidean
    norm, the square root of the sum of the squared components; the value is
    never negative, it is 0 on the all-zero vector of any length, 5 on
    [[3, 4]] and 0 on [[0, 0, 0]]. *)
Theorem radius_euclidean_norm :
  (forall v : list R,
      exists r, radius (numeric_vector v) = Ok (np.Fin r)
                /\ r = sqrt (sum_sq v) /\ 0 <= r)
  /\ (forall d : nat, radius (numeric_vector (repeat 0 d)) = Ok (np.Fin 0))
  /\ radius (numeric_vector [3; 4]) = Ok (np.Fin 5)
  /\ radius (numeric_vector [0; 0; 0]) = Ok (np.Fin 0).
Proof.
  repeat split.
  - intros v. exists (euclidean_norm v). repeat split.
    + apply radius_numeric.
    + apply sqrt_pos.
  - intros d. rewrite radius_numeric. unfold euclidean_norm.
    now rewrite sum_sq_zeros, sqrt_0.
  - rewrite radius_numeric. unfold euclidean_norm. simpl.
    replace (3 * 3 + (4 * 4 + 0)) with (5 * 5) by lra.
    rewrite sqrt_square; [reflexivity | lra].
  - rewrite radius_numeric. unfold euclidean_norm. simpl.
    replace (0 * 0 + (0 * 0 + (0 * 0 + 0))) with 0 by lra.
    now rewrite sqrt_0.
Qed.

(** ** Counting into bins *)

Section Bincount.

Import histogram.

Lemma total_bump (i : nat) (c : list nat) : total (bump i c) = S (total c).
Proof.
  revert c. induction i as [|i IH]; intros [|n c]; simpl; try reflexivity.
  - now rewrite IH.
  - rewrite IH. lia.
Qed.

Lemma length_bump (i : nat) (c : list nat) :
  (i < length c)%nat -> length (bump i c) = length c.
Proof.
  revert c. induction i as [|i IH]; intros [|n c] H; simpl in *; try lia.
  rewrite IH; lia.
Qed.

Lemma nth_bump (i j : nat) (c : list nat) :
  nth j (bump i c) O = if Nat.eqb i j then S (nth j c O) else nth j c O.
Proof.
  revert j c. induction i as [|i IH]; intros [|j] [|n c]; simpl; try reflexivity.
  - now destruct j.
  - rewrite IH. now destruct j.
  - apply IH.
Qed.

Lemma total_repeat_zero (b : nat) : total (repeat O b) = O.
Proof. induction b; simpl; auto. Qed.

Lemma total_fold_bump (idx : list nat) (c : list nat) :
  total (fold_left (fun c i => bump i c) idx c) = (total c + length idx)%nat.
Proof.
  revert c. induction idx as [|i idx IH]; intros c; simpl; [lia|].
  rewrite IH, total_bump. lia.
Qed.

Lemma total_bincount (idx : list nat) (b : nat) :
  total (bincount idx b) = length idx.
Proof.
  unfold bincount. now rewrite total_fold_bump, total_repeat_zero.
Qed.

Lemma length_fold_bump (idx : list nat) (c : list nat) :
  Forall (fun i => (i < length c)%nat) idx ->
  length (fold_left (fun c i => bump i c) idx c) = length c.
Proof.
  revert c. induction idx as [|i idx IH]; intros c H; simpl; [reflexivity|].
  inversion H as [|? ? Hi Hidx]; subst.
  rewrite IH; rewrite length_bump; auto.
Qed.

Lemma length_bincount (idx : list nat) (b : nat) :
  Forall (fun i => (i < b)%nat) idx -> length (bincount idx b) = b.
Proof.
  intros H. unfold bincount. rewrite length_fold_bump; rewrite repeat_length; auto.
Qed.

Lemma nth_fold_bump (idx : list nat) (c : list nat) (j : nat) :
  nth j (fold_left (fun c i => bump i c) idx c) O
  = (nth j c O + count_occ Nat.eq_dec idx j)%nat.
Proof.
  revert c. induction idx as [|i idx IH]; intros c; simpl; [lia|].
  rewrite IH, nth_bump.
  destruct (Nat.eq_dec i j) as [->|Hne].
  - rewrite Nat.eqb_refl. lia.
  - apply Nat.eqb_neq in Hne. rewrite Hne. lia.
Qed.

Lemma nth_bincount (idx : list nat) (b j : nat) :
  nth j (bincount idx b) O = count_occ Nat.eq_dec idx j.
Proof.
  unfold bincount. rewrite nth_fold_bump.
  rewrite nth_repeat. reflexivity.
Qed.

End Bincount.

(** ** Bin edges and bin indices *)

Section Binning.

Import histogram.

Lemma amin_le (a : list R) (x : R) :
  amin x a <= x /\ Forall (fun y => amin x a <= y) a.
Proof.
  unfold amin. revert x. induction a as [|y a IH]; intros x; simpl.
  - split; [lra | constructor].
  - destruct (IH (Rmin x y)) as [H1 H2].
    pose proof (Rmin_l x y). pose proof (Rmin_r x y).
    split; [lra|]. constructor; [lra | exact H2].
Qed.

Lemma amax_ge (a : list R) (x : R) :
  x <= amax x a /\ Forall (fun y => y <= amax x a) a.
Proof.
  unfold amax. revert x. induction a as [|y a IH]; intros x; simpl.
  - split; [lra | constructor].
  - destruct (IH (Rmax x y)) as [H1 H2].
    pose proof (Rmax_l x y). pose proof (Rmax_r x y).
    split; [lra|]. constructor; [lra | exact H2].
Qed.

(** The outer edges are apart and every entry lies between them. *)
Lemma outer_edges_spec (a : list R) (lo hi : R) :
  outer_edges a = (lo, hi) ->
  lo < hi /\ Forall (fun x => lo <= x <= hi) a.
Proof.
  unfold outer_edges. destruct a as [|x a].
  - destruct (Req_dec_T 0 1) as [E|_]; [lra|].
    intros H; inversion H; subst. split; [lra | constructor].
  - destruct (amin_le a x) as [Hm Hma]. destruct (amax_ge a x) as [HM HMa].
    assert (Hall : Forall (fun y => amin x a <= y <= amax x a) (x :: a)).
    { constructor; [lra|]. rewrite Forall_forall in *. intros y Hy.
      split; [apply Hma | apply HMa]; exact Hy. }
    destruct (Req_dec_T (amin x a) (amax x a)) as [E|NE];
      intros H; inversion H; subst; clear H.
    + split; [lra|]. eapply Forall_impl; [|exact Hall]. simpl. intros y Hy. lra.
    + split; [lra | exact Hall].
Qed.

Lemma Int_part_range (t : R) (b : nat) :
  0 <= t <= INR b -> (0 <= Int_part t <= Z.of_nat b)%Z.
Proof.
  intros [H0 Hb]. destruct (base_Int_part t) as [Hle Hgt].
  rewrite INR_IZR_INZ in Hb. split.
  - assert (IZR (-1) < IZR (Int_part t)) as H by (simpl; lra).
    apply lt_IZR in H. lia.
  - apply le_IZR. lra.
Qed.

Lemma Int_part_mono (s t : R) : s <= t -> (Int_part s <= Int_part t)%Z.
Proof.
  intros H. destruct (base_Int_part s) as [Hs _]. destruct (base_Int_part t) as [_ Ht].
  assert (IZR (Int_part s) < IZR (Int_part t + 1)) as L by (rewrite plus_IZR; lra).
  apply lt_IZR in L. lia.
Qed.

(** The scaled offset of an entry between the edges. *)
Lemma offset_range (lo hi x : R) (b : nat) :
  lo < hi -> lo <= x <= hi ->
  0 <= (x - lo) * (INR b / (hi - lo)) <= INR b.
Proof.
  intros Hlt [Hl Hh]. pose proof (pos_INR b) as Hb.
  assert (0 < / (hi - lo)) as Hinv by (apply Rinv_0_lt_compat; lra).
  assert ((x - lo) * (INR b / (hi - lo)) = INR b * ((x - lo) * / (hi - lo))) as ->
      by (unfold Rdiv; ring).
  assert (0 <= (x - lo) * / (hi - lo) <= 1) as [H0 H1].
  { split.
    - apply Rmult_le_pos; lra.
    - apply (Rmult_le_reg_r (hi - lo)); [lra|].
      rewrite Rmult_assoc, Rinv_l by lra. lra. }
  split; [apply Rmult_le_pos; lra | nra].
Qed.

Lemma bin_index_lt (lo hi x : R) (b : nat) :
  (1 <= b)%nat -> lo < hi -> lo <= x <= hi -> (bin_index lo hi b x < b)%nat.
Proof.
  intros Hb Hlt Hx. unfold bin_index.
  pose proof (Int_part_range _ b (offset_range lo hi x b Hlt Hx)) as Hr.
  destruct (Nat.eqb_spec (Z.to_nat (Int_part ((x - lo) * (INR b / (hi - lo))))) b); lia.
Qed.

Lemma bin_index_mono (lo hi x y : R) (b : nat) :
  lo < hi -> lo <= x -> x <= y -> y <= hi ->
  (bin_index lo hi b x <= bin_index lo hi b y)%nat.
Proof.
  intros Hlt Hx Hxy Hy. unfold bin_index.
  pose proof (Int_part_range _ b (offset_range lo hi x b Hlt (conj Hx (Rle_trans _ _ _ Hxy Hy)))) as Hrx.
  pose proof (Int_part_range _ b (offset_range lo hi y b Hlt (conj (Rle_trans _ _ _ Hx Hxy) Hy))) as Hry.
  assert ((x - lo) * (INR b / (hi - lo)) <= (y - lo) * (INR b / (hi - lo))) as Hm.
  { apply Rmult_le_compat_r; [|lra].
    apply Rmult_le_pos; [apply pos_INR|].
    left. apply Rinv_0_lt_compat. lra. }
  apply Int_part_mono in Hm.
  destruct (Nat.eqb_spec (Z.to_nat (Int_part ((x - lo) * (INR b / (hi - lo))))) b);
    destruct (Nat.eqb_spec (Z.to_nat (Int_part ((y - lo) * (INR b / (hi - lo))))) b); lia.
Qed.

Lemma length_linspace (lo hi : R) (b : nat) : length (linspace lo hi b) = S b.
Proof. unfold linspace. now rewrite length_map, length_seq. Qed.

Lemma nth_linspace (lo hi : R) (b i : nat) :
  (i <= b)%nat -> nth i (linspace lo hi b) 0 = lo + INR i * ((hi - lo) / INR b).
Proof.
  intros H. unfold linspace.
  set (f := fun i : nat => lo + INR i * ((hi - lo) / INR b)).
  rewrite (nth_indep _ 0 (f O)) by (rewrite length_map, length_seq; lia).
  rewrite map_nth, seq_nth by lia. reflexivity.
Qed.

Lemma linspace_ends (lo hi : R) (b : nat) :
  (1 <= b)%nat ->
  nth 0 (linspace lo hi b) 0 = lo /\ nth b (linspace lo hi b) 0 = hi.
Proof.
  intros H. rewrite !nth_linspace by lia. split.
  - simpl. lra.
  - assert (INR b <> 0) by (apply not_0_INR; lia). field. assumption.
Qed.

Lemma diff_map_seq (f : nat -> R) (s n : nat) :
  diff (map f (seq s (S n))) = map (fun i => f (S i) - f i) (seq s n).
Proof.
  revert s. induction n as [|n IH]; intros s; [reflexivity|].
  change (seq s (S (S n))) with (s :: seq (S s) (S n)).
  rewrite map_cons. specialize (IH (S s)).
  change (seq (S s) (S n)) with (S s :: seq (S (S s)) n) in *.
  rewrite map_cons in *. simpl diff at 1. simpl in IH. simpl. now rewrite IH.
Qed.

(** All bins have the same width. *)
Lemma diff_linspace (lo hi : R) (b : nat) :
  diff (linspace lo hi b) = repeat ((hi - lo) / INR b) b.
Proof.
  unfold linspace. rewrite diff_map_seq.
  assert (forall s n, map (fun i => lo + INR (S i) * ((hi - lo) / INR b)
                                    - (lo + INR i * ((hi - lo) / INR b))) (seq s n)
                      = repeat ((hi - lo) / INR b) n) as H.
  { intros s n. revert s. induction n as [|n IH]; intros s; [reflexivity|].
    simpl seq. rewrite map_cons, IH. simpl repeat. f_equal.
    rewrite S_INR. ring. }
  apply H.
Qed.

End Binning.

(** ** Heights of the drawn histograms *)

Section Heights.

Import histogram.

Lemma cumsum_finite (l : list R) (a : R) :
  cumsum_from (np.Fin a) (map np.Fin l) = map np.Fin (running a l).
Proof.
  revert a. induction l as [|x l IH]; intros a; simpl; [reflexivity|].
  now rewrite IH.
Qed.

Lemma heights_counts (counts : list nat) (edges : list R) :
  heights counts edges false false = map (fun c => np.Fin (INR c)) counts.
Proof. reflexivity. Qed.

Lemma density_times_width (counts : list nat) (w N : R) :
  w <> 0 -> N <> 0 ->
  np.zip_with np.mul
    (map (fun x => np.div x (np.Fin N))
         (np.zip_with np.div (map (fun c => np.Fin (INR c)) counts)
                      (map np.Fin (repeat w (length counts)))))
    (map np.Fin (repeat w (length counts)))
  = map np.Fin (map (fun c => INR c / N) counts).
Proof.
  intros Hw HN. induction counts as [|c counts IH]; simpl; [reflexivity|].
  rewrite IH. f_equal.
  destruct (Req_dec_T w 0) as [E|_]; [contradiction|]. simpl.
  destruct (Req_dec_T N 0) as [E|_]; [contradiction|].
  simpl. f_equal. field. split; assumption.
Qed.

(** Normed and cumulative, the heights over equal bins are the running
    sums of the counts' shares. *)
Lemma heights_cdf (counts : list nat) (lo hi : R) :
  lo < hi -> (0 < total counts)%nat ->
  heights counts (linspace lo hi (length counts)) true true
  = map np.Fin (running 0 (map (fun c => INR c / INR (total counts)) counts)).
Proof.
  intros Hlt HN. unfold heights, cumsum. rewrite diff_linspace.
  assert (length counts <> O) as Hb by (destruct counts; simpl in *; lia).
  rewrite density_times_width.
  - apply cumsum_finite.
  - assert (0 < INR (length counts)) by (apply lt_0_INR; lia).
    apply Rgt_not_eq. apply Rdiv_lt_0_compat; lra.
  - apply not_0_INR. lia.
Qed.

Lemma length_running (l : list R) (a : R) : length (running a l) = length l.
Proof. revert a. induction l as [|x l IH]; intros a; simpl; auto. Qed.

Lemma running_ge (l : list R) (a : R) :
  Forall (fun x => 0 <= x) l -> Forall (fun y => a <= y) (running a l).
Proof.
  revert a. induction l as [|x l IH]; intros a H; simpl; constructor;
    inversion H as [|? ? Hx Hl]; subst.
  - lra.
  - eapply Forall_impl; [|apply IH; exact Hl]. simpl. intros y Hy. lra.
Qed.

Lemma running_sorted (l : list R) (a : R) :
  Forall (fun x => 0 <= x) l -> StronglySorted Rle (running a l).
Proof.
  revert a. induction l as [|x l IH]; intros a H; simpl; constructor;
    inversion H as [|? ? Hx Hl]; subst.
  - apply IH. exact Hl.
  - apply running_ge. exact Hl.
Qed.

Lemma nth_running (l : list R) (a : R) (i : nat) :
  (i < length l)%nat ->
  nth i (running a l) 0 = a + fold_right Rplus 0 (firstn (S i) l).
Proof.
  revert a i. induction l as [|x l IH]; intros a i H; simpl in H; [lia|].
  destruct i as [|i].
  - simpl. destruct l; simpl; lra.
  - change (running a (x :: l)) with ((a + x) :: running (a + x) l).
    change (nth (S i) ((a + x) :: running (a + x) l) 0) with (nth i (running (a + x) l) 0).
    rewrite IH by lia.
    change (firstn (S (S i)) (x :: l)) with (x :: firstn (S i) l).
    simpl fold_right. lra.
Qed.

Lemma shares_firstn (counts : list nat) (N : R) (k : nat) :
  fold_right Rplus 0 (firstn k (map (fun c => INR c / N) counts))
  = INR (total (firstn k counts)) / N.
Proof.
  revert k. induction counts as [|c counts IH]; intros [|k]; simpl;
    try (unfold Rdiv; ring).
  rewrite IH. change (total (firstn k counts)) with (fold_right Nat.add O (firstn k counts)).
  rewrite plus_INR. unfold total, Rdiv. ring.
Qed.

Lemma count_upto_succ (idx : list nat) (i : nat) :
  length (filter (fun k => (k <=? S i)%nat) idx)
  = (length (filter (fun k => (k <=? i)%nat) idx) + count_occ Nat.eq_dec idx (S i))%nat.
Proof.
  induction idx as [|k idx IH]; simpl; [reflexivity|].
  destruct (Nat.eq_dec k (S i)) as [->|Hne].
  - rewrite Nat.leb_refl.
    assert ((S i <=? i)%nat = false) as -> by (apply Nat.leb_gt; lia).
    simpl. lia.
  - destruct (Nat.leb_spec k (S i)); destruct (Nat.leb_spec k i); simpl; lia.
Qed.

Lemma total_firstn_succ (l : list nat) (n : nat) :
  (n < length l)%nat ->
  total (firstn (S n) l) = (total (firstn n l) + nth n l O)%nat.
Proof.
  revert n. induction l as [|x l IHl]; intros n Hn; simpl in Hn; [lia|].
  destruct n as [|n]; [simpl; lia|].
  change (firstn (S (S n)) (x :: l)) with (x :: firstn (S n) l).
  change (firstn (S n) (x :: l)) with (x :: firstn n l).
  change (nth (S n) (x :: l) O) with (nth n l O).
  change (total (x :: firstn (S n) l)) with (x + total (firstn (S n) l))%nat.
  change (total (x :: firstn n l)) with (x + total (firstn n l))%nat.
  rewrite IHl by lia. lia.
Qed.

(** The first bins of a bin count hold the entries binned so far. *)
Lemma total_firstn_bincount (idx : list nat) (b i : nat) :
  Forall (fun k => (k < b)%nat) idx -> (i < b)%nat ->
  total (firstn (S i) (bincount idx b))
  = length (filter (fun k => (k <=? i)%nat) idx).
Proof.
  intros Hidx. pose proof (length_bincount idx b Hidx) as Hlen.
  induction i as [|i IH]; intros Hi.
  - pose proof (nth_bincount idx b O) as H0.
    destruct (bincount idx b) as [|c cs] eqn:E; [simpl in Hlen; lia|].
    simpl in *. rewrite H0, Nat.add_0_r. clear.
    induction idx as [|k idx IH]; simpl; [reflexivity|].
    destruct (Nat.eq_dec k 0) as [->|Hne]; simpl; [now rewrite IH|].
    destruct k; [contradiction|]. simpl. exact IH.
  - rewrite count_upto_succ, <- IH by lia.
    rewrite <- (nth_bincount idx b (S i)).
    apply total_firstn_succ. lia.
Qed.

End Heights.

(** ** Series of finite values *)

Section FiniteSeries.

Import histogram.

Lemma dropna_finite (l : list R) : pd.dropna (map np.Fin l) = map np.Fin l.
Proof.
  unfold pd.dropna. induction l as [|x l IH]; simpl; [reflexivity|]. now rewrite IH.
Qed.

Lemma finite_map_Fin (l : list R) : np.finite (map np.Fin l) = Some l.
Proof.
  induction l as [|x l IH]; simpl; [reflexivity|]. now rewrite IH.
Qed.

(** Builtin [max] over finite values is the greatest of them. *)
Lemma max_from_finite (l : list R) (x : R) :
  builtins.max_from (np.Fin x) (map np.Fin l) = np.Fin (amax x l).
Proof.
  unfold amax. revert x. induction l as [|y l IH]; intros x; simpl; [reflexivity|].
  destruct (Rlt_dec x y) as [H|H]; rewrite IH; do 2 f_equal.
  - rewrite Rmax_right; lra.
  - rewrite Rmax_left; lra.
Qed.

Lemma contains_lookup (name : string) (d : pd.DataFrame) (s : list np.float64) :
  pd.lookup name (pd.columns d) = Some s -> pd.contains name d = true.
Proof.
  unfold pd.contains. induction (pd.columns d) as [|[k v] cols IH]; simpl; [discriminate|].
  destruct (String.eqb k name); [reflexivity|]. exact IH.
Qed.

Lemma lookup_contains (name : string) (d : pd.DataFrame) :
  pd.contains name d = true -> exists s, pd.lookup name (pd.columns d) = Some s.
Proof.
  unfold pd.contains. induction (pd.columns d) as [|[k v] cols IH]; simpl; [discriminate|].
  destruct (String.eqb k name); [intros _; now exists v|]. exact IH.
Qed.

(** What [ax.hist] does with finite data and at least one bin. *)
Lemma ax_hist_finite (ax : plt.axes) (xs : list R) (bins : Z) (normed cumulative : bool)
  (w : world) :
  (1 <= bins)%Z ->
  ax_hist ax (map np.Fin xs) bins normed cumulative w
  = let b := Z.to_nat bins in
    let lo := fst (outer_edges xs) in
    let hi := snd (outer_edges xs) in
    let counts := bincount (map (bin_index lo hi b) xs) b in
    let edges := linspace lo hi b in
    (Ok tt, mk_world (frame w)
              (canvas w ++ [plt.hist ax edges (heights counts edges normed cumulative)])).
Proof.
  intros Hb. unfold ax_hist, seq_bind, lift, histogram.
  assert ((bins <? 1)%Z = false) as -> by (apply Z.ltb_ge; lia).
  rewrite finite_map_Fin. destruct (outer_edges xs) as [lo hi]. reflexivity.
Qed.

(** With a bin count below one the histogram call raises and draws
    nothing. *)
Lemma ax_hist_no_bins (ax : plt.axes) (x : list np.float64) (bins : Z)
  (normed cumulative : bool) (w : world) :
  (bins < 1)%Z ->
  ax_hist ax x bins normed cumulative w = (Raise ValueError, w).
Proof.
  intros Hb. unfold ax_hist, seq_bind, lift, histogram.
  assert ((bins <? 1)%Z = true) as -> by (apply Z.ltb_lt; lia).
  reflexivity.
Qed.

End FiniteSeries.


(** ** Statements that do not assign to the data frame *)

Section Frame.

Lemma keeps_ret {A : Type} (a : A) : keeps_frame (ret a).
Proof. intros w. reflexivity. Qed.

Lemma keeps_raise {A : Type} (e : exn) : keeps_frame (raise (A := A) e).
Proof. intros w. reflexivity. Qed.

Lemma keeps_lift {A : Type} (r : result A) : keeps_frame (lift r).
Proof. intros w. reflexivity. Qed.

Lemma keeps_draw (c : plt.command) : keeps_frame (draw c).
Proof. intros w. reflexivity. Qed.

Lemma keeps_df : keeps_frame df.
Proof. intros w. reflexivity. Qed.

Lemma keeps_bind {A B : Type} (m : M A) (k : A -> M B) :
  keeps_frame m -> (forall a, keeps_frame (k a)) -> keeps_frame (seq_bind m k).
Proof.
  intros Hm Hk w. unfold seq_bind. specialize (Hm w).
  destruct (m w) as [[a|e] w']; simpl in *.
  - now rewrite Hk.
  - exact Hm.
Qed.

Lemma keeps_assert (c : bool) (msg : string) : keeps_frame (assert c msg).
Proof. destruct c; intros w; reflexivity. Qed.

End Frame.

Create HintDb frame.
#[export] Hint Resolve keeps_ret keeps_raise keeps_lift keeps_draw keeps_df
  keeps_assert : frame.

Ltac keeps :=
  repeat first
    [ apply keeps_bind; [| intros ?]
    | solve [auto with frame]
    | match goal with |- keeps_frame (if ?c then _ else _) => destruct c end ].

Section FrameOfHelpers.

Lemma keeps_ax_hist (ax : plt.axes) (x : list np.float64) (bins : Z) (n c : bool) :
  keeps_frame (ax_hist ax x bins n c).
Proof. unfold ax_hist. keeps. Qed.

Lemma keeps_volume_branch : keeps_frame volume_branch.
Proof. unfold volume_branch. keeps. Qed.

Lemma keeps_radial_branch : keeps_frame radial_branch.
Proof. unfold radial_branch. keeps. Qed.

Lemma keeps_plot_body (norm vol : bool) : keeps_frame (plot_body norm vol).
Proof.
  unfold plot_body. keeps.
Qed.

Lemma keeps_in_sample_dist (X : np.ndarray) (n : Z) : keeps_frame (in_sample_dist X n).
Proof. unfold in_sample_dist. keeps. Qed.

End FrameOfHelpers.

(** ** Runs of [kde_cdf_plot] *)

Section Runs.

Import histogram.

Lemma kde_cdf_plot_steps (norm vol : bool) :
  kde_cdf_plot norm vol
  = (d <- df ;;
     assert (pd.contains "r" d) assert_msg ;;
     (if norm then normalize_r else ret tt) ;;
     plot_body norm vol)%py.
Proof. reflexivity. Qed.

(** Without an 'r' column the assertion fails, first thing. *)
Lemma kde_without_r (norm vol : bool) (w : world) :
  pd.contains "r" (frame w) = false ->
  kde_cdf_plot norm vol w = (Raise (AssertionError assert_msg), w).
Proof.
  intros H. rewrite kde_cdf_plot_steps. unfold seq_bind at 1, df at 1.
  unfold seq_bind at 1. now rewrite H.
Qed.

(** With an 'r' column the assertion passes and the run goes on. *)
Lemma kde_with_r (norm vol : bool) (w : world) :
  pd.contains "r" (frame w) = true ->
  kde_cdf_plot norm vol w
  = ((if norm then normalize_r else ret tt) ;; plot_body norm vol)%py w.
Proof.
  intros H. rewrite kde_cdf_plot_steps. unfold seq_bind at 1, df at 1.
  unfold seq_bind at 1. now rewrite H.
Qed.

Lemma lookup_assign (name : string) (s : list np.float64)
  (cols : list (string * list np.float64)) :
  pd.lookup name (pd.assign name s cols) = Some s.
Proof.
  induction cols as [|[k v] cols IH]; simpl.
  - now rewrite String.eqb_refl.
  - destruct (String.eqb k name) eqn:E; simpl; rewrite E; [reflexivity | exact IH].
Qed.

Lemma lookup_assign_other (name other : string) (s : list np.float64)
  (cols : list (string * list np.float64)) :
  other <> name ->
  pd.lookup other (pd.assign name s cols) = pd.lookup other cols.
Proof.
  intros Hne. induction cols as [|[k v] cols IH]; simpl.
  - destruct (String.eqb_spec name other); [congruence | reflexivity].
  - destruct (String.eqb_spec k name) as [->|Hk]; simpl.
    + destruct (String.eqb_spec name other); [congruence | reflexivity].
    + destruct (String.eqb k other); [reflexivity | exact IH].
Qed.

(** The normalisation assigns the quotients by the greatest radius; on an
    empty column [max] raises. *)
Lemma normalize_r_run (w : world) (y : np.float64) (s : list np.float64) :
  pd.lookup "r" (pd.columns (frame w)) = Some (y :: s) ->
  normalize_r w
  = (Ok tt,
     mk_world (pd.setitem "r" (map (fun x => np.div x (builtins.max_from y s)) (y :: s)) (frame w))
              (canvas w)).
Proof.
  intros Hr. unfold normalize_r, seq_bind, df, lift, pd.getitem.
  cbn [frame canvas]. rewrite Hr. reflexivity.
Qed.

Lemma normalize_r_empty (w : world) :
  pd.lookup "r" (pd.columns (frame w)) = Some [] ->
  normalize_r w = (Raise ValueError, w).
Proof.
  intros Hr. unfold normalize_r, seq_bind, df, lift, pd.getitem.
  cbn [frame canvas]. rewrite Hr. reflexivity.
Qed.

Lemma div_finite (a : list R) (m : R) :
  m <> 0 ->
  map (fun x => np.div x (np.Fin m)) (map np.Fin a) = map np.Fin (map (fun r => r / m) a).
Proof.
  intros Hm. induction a as [|x a IH]; simpl; [reflexivity|].
  rewrite IH. destruct (Req_dec_T m 0); [contradiction | reflexivity].
Qed.

(** The statements after the normalisation, [vol] on: the KDE subplot is
    drawn, then the branch raises. *)
Lemma plot_body_volume (norm : bool) (w : world) (s : list np.float64) :
  pd.lookup "r" (pd.columns (frame w)) = Some s ->
  plot_body norm true w
  = (Raise (NotImplementedError vol_msg),
     mk_world (frame w) (canvas w ++ kde_commands (frame w) s)).
Proof.
  intros Hr. unfold plot_body, seq_bind, df, draw, lift, pd.getitem.
  cbn [frame canvas]. rewrite Hr.
  unfold volume_branch, seq_bind, raise. cbn [frame canvas].
  unfold kde_commands. rewrite <- !app_assoc. reflexivity.
Qed.

(** The statements after the normalisation, [vol] off, over finite radii. *)
Lemma plot_body_radial (norm : bool) (w : world) (x : R) (rs : list R) :
  pd.lookup "r" (pd.columns (frame w)) = Some (map np.Fin (x :: rs)) ->
  plot_body norm false w
  = (Ok tt, mk_world (frame w)
              (canvas w ++ radial_commands (frame w) (x :: rs) (radial_label norm))).
Proof.
  intros Hr. unfold plot_body, seq_bind, df, draw, lift, pd.getitem.
  cbn [frame canvas]. rewrite Hr.
  unfold radial_branch, seq_bind, df, lift, pd.getitem. cbn [frame canvas]. rewrite Hr.
  unfold series_plot_hist. rewrite dropna_finite.
  rewrite ax_hist_finite by (rewrite length_map; simpl length; lia).
  cbn [frame canvas builtins.max map draw ret]. rewrite max_from_finite. cbn [np.mul].
  change (np.Fin x :: map np.Fin rs) with (map np.Fin (x :: rs)).
  rewrite length_map, Nat2Z.id.
  unfold radial_commands, kde_commands, cdf_edges, cdf_counts, greatest, radial_label.
  rewrite <- !app_assoc. destruct norm; reflexivity.
Qed.

End Runs.

(** ** Exceptions a statement can raise *)

Section Raises.

Context {P : exn -> Prop}.

Lemma only_ret {A : Type} (a : A) : raises_only P (ret a).
Proof. intros w e H. discriminate. Qed.

Lemma only_draw (c : plt.command) : raises_only P (draw c).
Proof. intros w e H. discriminate. Qed.

Lemma only_df : raises_only P df.
Proof. intros w e H. discriminate. Qed.

Lemma only_df_setitem (name : string) (s : list np.float64) :
  raises_only P (df_setitem name s).
Proof. intros w e H. discriminate. Qed.

Lemma only_raise {A : Type} (e : exn) : P e -> raises_only P (raise (A := A) e).
Proof. intros He w e' H. inversion H; subst. exact He. Qed.

Lemma only_lift {A : Type} (r : result A) :
  (forall e, r = Raise e -> P e) -> raises_only P (lift r).
Proof. intros Hr w e H. apply Hr. exact H. Qed.

Lemma only_bind {A B : Type} (m : M A) (k : A -> M B) :
  raises_only P m -> (forall a, raises_only P (k a)) -> raises_only P (seq_bind m k).
Proof.
  intros Hm Hk w e. unfold seq_bind. specialize (Hm w).
  destruct (m w) as [[a|e'] w']; simpl in *.
  - apply Hk.
  - intros H. inversion H; subst. apply Hm. reflexivity.
Qed.

End Raises.

Section RaisesOfHelpers.

Lemma getitem_error (name : string) (d : pd.DataFrame) (e : exn) :
  pd.getitem name d = Raise e -> e = KeyError.
Proof. unfold pd.getitem. destruct (pd.lookup name (pd.columns d)); congruence. Qed.

Lemma max_error (s : list np.float64) (e : exn) :
  builtins.max s = Raise e -> e = ValueError.
Proof. destruct s; simpl; congruence. Qed.

Lemma histogram_error (a : list np.float64) (bins : Z) (e : exn) :
  histogram.histogram a bins = Raise e -> e = ValueError.
Proof.
  unfold histogram.histogram. destruct (bins <? 1)%Z; [congruence|].
  destruct (np.finite a); [|congruence].
  destruct (histogram.outer_edges l). congruence.
Qed.

Ltac errors :=
  repeat first
    [ apply only_bind; [| intros ?]
    | apply only_ret | apply only_draw | apply only_df | apply only_df_setitem
    | apply only_raise; unfold later_error; tauto
    | apply only_lift; intros ? ?H;
      first [ apply getitem_error in H | apply max_error in H
            | apply histogram_error in H ];
      unfold later_error; tauto
    | match goal with |- raises_only _ (if ?c then _ else _) => destruct c end ].

Lemma only_ax_hist (ax : plt.axes) (x : list np.float64) (bins : Z) (n c : bool) :
  raises_only later_error (ax_hist ax x bins n c).
Proof. unfold ax_hist. errors. Qed.

Lemma only_normalize_r : raises_only later_error normalize_r.
Proof. unfold normalize_r. errors. Qed.

Lemma only_plot_body (norm vol : bool) : raises_only later_error (plot_body norm vol).
Proof.
  unfold plot_body. errors.
Qed.

Lemma only_after_assert (norm vol : bool) :
  raises_only later_error
    ((if norm then normalize_r else ret tt) ;; plot_body norm vol)%py.
Proof.
  apply only_bind.
  - destruct norm; [apply only_normalize_r | apply only_ret].
  - intros _. apply only_plot_body.
Qed.

End RaisesOfHelpers.

(** ** The data frame after a run *)

Section FrameAfter.

Lemma kde_frame_normal (vol : bool) (w : world) :
  frame (snd (kde_cdf_plot false vol w)) = frame w.
Proof.
  rewrite kde_cdf_plot_steps.
  assert (keeps_frame (d <- df ;; assert (pd.contains "r" d) assert_msg ;;
                       ret tt ;; plot_body false vol)%py) as H.
  { keeps. }
  apply H.
Qed.

Lemma kde_frame_norm (vol : bool) (w : world) (y : np.float64) (s : list np.float64) :
  pd.lookup "r" (pd.columns (frame w)) = Some (y :: s) ->
  frame (snd (kde_cdf_plot true vol w)) = pd.setitem "r" (normalized (y :: s)) (frame w).
Proof.
  intros Hr. rewrite kde_with_r by (eapply contains_lookup; exact Hr).
  unfold seq_bind at 1. rewrite (normalize_r_run w y s Hr).
  rewrite keeps_plot_body. reflexivity.
Qed.

Lemma kde_frame_norm_empty (vol : bool) (w : world) :
  pd.lookup "r" (pd.columns (frame w)) = Some [] ->
  kde_cdf_plot true vol w = (Raise ValueError, w).
Proof.
  intros Hr. rewrite kde_with_r by (eapply contains_lookup; exact Hr).
  unfold seq_bind at 1. now rewrite (normalize_r_empty w Hr).
Qed.

End FrameAfter.

(** ** The assertion on the 'r' column *)

(** C10.  On a data frame without a column named 'r' [kde_cdf_plot] fails
    its assertion at once: the world is as it was, nothing has been computed
    or drawn.  On a data frame with an 'r' column the assertion passes: the
    run continues with the statements after it and never ends in an
    [AssertionError]. *)
Theorem kde_cdf_plot_asserts_r_column :
  forall (norm vol : bool) (w : world),
    (pd.contains "r" (frame w) = false ->
       kde_cdf_plot norm vol w = (Raise (AssertionError assert_msg), w))
    /\ (pd.contains "r" (frame w) = true ->
          kde_cdf_plot norm vol w
          = ((if norm then normalize_r else ret tt) ;; plot_body norm vol)%py w
          /\ forall msg, fst (kde_cdf_plot norm vol w) <> Raise (AssertionError msg)).
Proof.
  intros norm vol w. split; intros H.
  - now apply kde_without_r.
  - split; [now apply kde_with_r|].
    intros msg E. rewrite kde_with_r in E by exact H.
    apply only_after_assert in E. unfold later_error in E.
    destruct E as [E|[E|E]]; discriminate.
Qed.

Lemma kde_cdf_plot_asserts_r_column_witness :
  kde_cdf_plot false false (blank two_points_no_r)
  = (Raise (AssertionError assert_msg), blank two_points_no_r)
  /\ forall msg, fst (kde_cdf_plot true false (blank two_points)) <> Raise (AssertionError msg).
Proof.
  split.
  - apply (proj1 (kde_cdf_plot_asserts_r_column false false (blank two_points_no_r))).
    reflexivity.
  - apply (proj2 (kde_cdf_plot_asserts_r_column true false (blank two_points))).
    reflexivity.
Defined.

(** ** The volume-normalised branch *)

(** C8, as stated, fails: with [vol] on, the figure and the KDE subplot of
    the two sample points are drawn before the exception, and on a frame
    without 'r' the exception is the assertion's. *)
Lemma volume_mode_draws_kde_first :
  kde_cdf_plot false true (blank two_points)
  = (Raise (NotImplementedError vol_msg),
     mk_world two_points
       [ plt.subplots 2 1 true 15 8;
         plt.kde_rug plt.ax1 [np.Fin 5; np.Fin 2];
         plt.ylabel plt.ax1 "KDE";
         plt.title plt.ax1 "n=2 in 2-d space" ])
  /\ kde_cdf_plot false true (blank two_points_no_r)
     = (Raise (AssertionError assert_msg), blank two_points_no_r).
Proof.
  split.
  - rewrite kde_with_r by reflexivity. unfold seq_bind, ret.
    rewrite (plot_body_volume false _ [np.Fin 5; np.Fin 2]) by reflexivity.
    reflexivity.
  - apply kde_without_r. reflexivity.
Qed.

(** C8, amended.  On a data frame with an 'r' column, [kde_cdf_plot] with
    [vol] on raises [NotImplementedError] when it reaches the branch: after
    the figure and the KDE subplot have been drawn, and, with [norm] on and
    a radius present, after 'r' has been overwritten with its normalised
    values.  No histogram is drawn: nothing of the volume-normalised
    computation after the [raise] is performed. *)
Theorem volume_mode_raises_after_kde :
  forall (w : world) (s : list np.float64),
    pd.lookup "r" (pd.columns (frame w)) = Some s ->
    kde_cdf_plot false true w
    = (Raise (NotImplementedError vol_msg),
       mk_world (frame w) (canvas w ++ kde_commands (frame w) s))
    /\ (s <> [] ->
        let d' := pd.setitem "r" (normalized s) (frame w) in
        kde_cdf_plot true true w
        = (Raise (NotImplementedError vol_msg),
           mk_world d' (canvas w ++ kde_commands d' (normalized s))))
    /\ (forall d r, existsb plt.is_hist (kde_commands d r) = false).
Proof.
  intros w s Hr. pose proof (contains_lookup _ _ _ Hr) as Hc. repeat split.
  - rewrite kde_with_r by exact Hc. unfold seq_bind, ret.
    now rewrite (plot_body_volume false w s Hr).
  - intros Hs. destruct s as [|y s]; [contradiction|]. intros d'.
    rewrite kde_with_r by exact Hc. unfold seq_bind at 1.
    rewrite (normalize_r_run w y s Hr).
    rewrite (plot_body_volume true _ (normalized (y :: s))).
    + reflexivity.
    + cbn [frame pd.setitem pd.columns]. apply lookup_assign.
Qed.

Lemma volume_mode_raises_after_kde_witness :
  kde_cdf_plot false true (blank two_points)
  = (Raise (NotImplementedError vol_msg),
     mk_world two_points (kde_commands two_points [np.Fin 5; np.Fin 2]))
  /\ fst (kde_cdf_plot true true (blank two_points)) = Raise (NotImplementedError vol_msg).
Proof.
  pose proof (volume_mode_raises_after_kde (blank two_points) [np.Fin 5; np.Fin 2]
                eq_refl) as [H1 [H2 _]].
  split; [exact H1|].
  rewrite H2; [reflexivity | discriminate].
Defined.

(** ** Effects on the caller's data *)

(** C7, as stated, fails: in normalisation mode the caller's 'r' column,
    5 and 2 for the two sample points, holds 1 and 2/5 after the call. *)
Lemma normalization_overwrites_r :
  pd.lookup "r" (pd.columns (frame (blank two_points))) = Some [np.Fin 5; np.Fin 2]
  /\ pd.lookup "r" (pd.columns (frame (snd (kde_cdf_plot true false (blank two_points)))))
     = Some [np.Fin 1; np.Fin (2 / 5)]
  /\ frame (snd (kde_cdf_plot true false (blank two_points))) <> frame (blank two_points).
Proof.
  assert (pd.lookup "r" (pd.columns (frame (snd (kde_cdf_plot true false (blank two_points)))))
          = Some [np.Fin 1; np.Fin (2 / 5)]) as H.
  { rewrite (kde_frame_norm false _ (np.Fin 5) [np.Fin 2]) by reflexivity.
    cbn [pd.setitem pd.columns]. rewrite lookup_assign. f_equal.
    unfold normalized.
    change [np.Fin 2] with (map np.Fin [2]). rewrite max_from_finite.
    assert (histogram.amax 5 [2] = 5) as ->.
    { unfold histogram.amax. simpl. apply Rmax_left. lra. }
    change (np.Fin 5 :: map np.Fin [2]) with (map np.Fin [5; 2]).
    rewrite div_finite by lra. simpl. do 2 f_equal. lra. }
  repeat split; [exact H|].
  intros E. rewrite E in H. simpl in H. inversion H. lra.
Qed.

(** C7, amended.  In normal mode [kde_cdf_plot] leaves the caller's data
    frame as it was, whatever the outcome, and so does [in_sample_dist].  In
    normalisation mode, on a frame whose 'r' column is not empty,
    [kde_cdf_plot] leaves the frame with 'r' overwritten by the quotients by
    the greatest radius; every other column, and the number of rows, are
    unchanged on every frame. *)
Theorem data_frame_after_plotting :
  (forall (vol : bool) (w : world), frame (snd (kde_cdf_plot false vol w)) = frame w)
  /\ (forall (X : np.ndarray) (n : Z) (w : world),
         frame (snd (in_sample_dist X n w)) = frame w)
  /\ (forall (vol : bool) (w : world) (y : np.float64) (s : list np.float64),
         pd.lookup "r" (pd.columns (frame w)) = Some (y :: s) ->
         frame (snd (kde_cdf_plot true vol w))
         = pd.setitem "r" (map (fun x => np.div x (builtins.max_from y s)) (y :: s)) (frame w))
  /\ (forall (vol : bool) (w : world) (other : string),
         other <> "r" ->
         pd.lookup other (pd.columns (frame (snd (kde_cdf_plot true vol w))))
         = pd.lookup other (pd.columns (frame w)))
  /\ (forall (norm vol : bool) (w : world),
         pd.nrows (frame (snd (kde_cdf_plot norm vol w))) = pd.nrows (frame w)).
Proof.
  assert (forall vol w other, other <> "r" ->
            pd.lookup other (pd.columns (frame (snd (kde_cdf_plot true vol w))))
            = pd.lookup other (pd.columns (frame w))
            /\ pd.nrows (frame (snd (kde_cdf_plot true vol w))) = pd.nrows (frame w)) as Hother.
  { intros vol w other Hne.
    destruct (pd.contains "r" (frame w)) eqn:Hc.
    - destruct (lookup_contains _ _ Hc) as [[|y s] Hr].
      + rewrite kde_frame_norm_empty by exact Hr. split; reflexivity.
      + rewrite (kde_frame_norm vol w y s Hr). cbn [pd.setitem pd.columns pd.nrows].
        split; [now apply lookup_assign_other | reflexivity].
    - rewrite kde_without_r by exact Hc. split; reflexivity. }
  repeat split.
  - apply kde_frame_normal.
  - intros X n w. apply keeps_in_sample_dist.
  - intros vol w y s Hr. now apply kde_frame_norm.
  - intros vol w other Hne. now apply Hother.
  - intros [|] vol w.
    + apply (Hother vol w "x"). discriminate.
    + now rewrite kde_frame_normal.
Qed.

Lemma data_frame_after_plotting_witness :
  frame (snd (kde_cdf_plot true false (blank two_points)))
  = pd.setitem "r" (map (fun x => np.div x (builtins.max_from (np.Fin 5) [np.Fin 2]))
                        [np.Fin 5; np.Fin 2]) two_points
  /\ pd.lookup "x1" (pd.columns (frame (snd (kde_cdf_plot true false (blank two_points)))))
     = Some [np.Fin 4; np.Fin 2].
Proof.
  destruct data_frame_after_plotting as [_ [_ [H3 [H4 _]]]]. split.
  - apply (H3 false (blank two_points) (np.Fin 5) [np.Fin 2]). reflexivity.
  - rewrite (H4 false (blank two_points) "x1"); [reflexivity | discriminate].
Defined.

(** ** The cumulative distribution of finite radii *)

Section Cdf.

Import histogram.

Variable a : list R.
Hypothesis nonempty : a <> [].

Let b := length a.
Let lo := fst (outer_edges a).
Let hi := snd (outer_edges a).

Lemma edges_apart : lo < hi /\ Forall (fun x => lo <= x <= hi) a.
Proof. apply outer_edges_spec. unfold lo, hi. now destruct (outer_edges a). Qed.

Lemma bins_positive : (1 <= b)%nat.
Proof. unfold b. destruct a; [contradiction | simpl; lia]. Qed.

Lemma indices_in_range : Forall (fun k => (k < b)%nat) (map (bin_index lo hi b) a).
Proof.
  destruct edges_apart as [Hlt Hall]. rewrite Forall_map.
  eapply Forall_impl; [|exact Hall]. simpl. intros x Hx.
  apply bin_index_lt; [apply bins_positive | exact Hlt | exact Hx].
Qed.

Lemma length_cdf_counts : length (cdf_counts a) = b.
Proof. unfold cdf_counts. apply length_bincount. apply indices_in_range. Qed.

Lemma total_cdf_counts : total (cdf_counts a) = b.
Proof. unfold cdf_counts. now rewrite total_bincount, length_map. Qed.

(** The drawn heights are the finite values [cdf_values]. *)
Lemma heights_cdf_values :
  heights (cdf_counts a) (cdf_edges a) true true = map np.Fin (cdf_values a).
Proof.
  unfold cdf_edges, cdf_values. fold lo hi b. rewrite <- length_cdf_counts.
  apply heights_cdf.
  - apply edges_apart.
  - rewrite total_cdf_counts. apply bins_positive.
Qed.

Lemma length_cdf_values : length (cdf_values a) = b.
Proof. unfold cdf_values. now rewrite length_running, length_map, length_cdf_counts. Qed.

Lemma shares_nonneg :
  Forall (fun x => 0 <= x)
         (map (fun c => INR c / INR (total (cdf_counts a))) (cdf_counts a)).
Proof.
  rewrite Forall_map, Forall_forall. intros c _.
  rewrite total_cdf_counts.
  assert (0 < INR b) by (apply lt_0_INR; apply bins_positive).
  apply Rmult_le_pos; [apply pos_INR|]. left. now apply Rinv_0_lt_compat.
Qed.

Lemma cdf_values_sorted : StronglySorted Rle (cdf_values a).
Proof. unfold cdf_values. apply running_sorted. apply shares_nonneg. Qed.

Lemma filter_map_length {A B : Type} (f : A -> B) (p : B -> bool) (l : list A) :
  length (filter p (map f l)) = length (filter (fun x => p (f x)) l).
Proof.
  induction l as [|x l IH]; simpl; [reflexivity|].
  destruct (p (f x)); simpl; now rewrite IH.
Qed.

(** Each height is the share of the radii binned at or below its bin. *)
Lemma nth_cdf_values (i : nat) :
  (i < b)%nat ->
  nth i (cdf_values a) 0 = INR (binned_upto lo hi b a i) / INR b.
Proof.
  intros Hi. unfold cdf_values.
  rewrite nth_running by (rewrite length_map, length_cdf_counts; exact Hi).
  rewrite shares_firstn, total_cdf_counts, Rplus_0_l. f_equal. f_equal.
  unfold cdf_counts. fold lo hi b.
  rewrite total_firstn_bincount by (try apply indices_in_range; exact Hi).
  unfold binned_upto. apply filter_map_length.
Qed.

Lemma filter_all {A : Type} (p : A -> bool) (l : list A) :
  Forall (fun x => p x = true) l -> filter p l = l.
Proof.
  induction l as [|x l IH]; intros H; simpl; [reflexivity|].
  inversion H as [|? ? Hx Hl]; subst. rewrite Hx. f_equal. now apply IH.
Qed.

Lemma binned_all (i : nat) :
  Forall (fun x => (bin_index lo hi b x <= i)%nat) a ->
  INR (binned_upto lo hi b a i) / INR b = 1.
Proof.
  intros H. unfold binned_upto.
  assert (filter (fun x => (bin_index lo hi b x <=? i)%nat) a = a) as ->.
  { apply filter_all. eapply Forall_impl; [|exact H]. simpl.
    intros x Hx. now apply Nat.leb_le. }
  fold b. apply Rinv_r. apply not_0_INR. pose proof bins_positive. lia.
Qed.

Lemma amax_in (x : R) (l : list R) : In (amax x l) (x :: l).
Proof.
  unfold amax. revert x. induction l as [|y l IH]; intros x; simpl; [now left|].
  destruct (IH (Rmax x y)) as [E|Hin].
  - unfold Rmax in E at 1. destruct (Rle_dec x y); [right; left | left]; exact E.
  - right. right. exact Hin.
Qed.

Lemma greatest_bounds :
  In (greatest a) a /\ Forall (fun x => x <= greatest a) a.
Proof.
  destruct a as [|x l]; [contradiction|]. unfold greatest. split.
  - apply amax_in.
  - destruct (amax_ge l x) as [H1 H2]. constructor; assumption.
Qed.

(** Over the bin of the greatest radius the height is one. *)
Lemma cdf_at_greatest : cdf_at a (greatest a) = 1.
Proof.
  destruct edges_apart as [Hlt Hall]. destruct greatest_bounds as [Hin Hle].
  assert (lo <= greatest a <= hi) as Hg
      by (rewrite Forall_forall in Hall; apply Hall; exact Hin).
  unfold cdf_at. fold lo hi b.
  rewrite nth_cdf_values by (apply bin_index_lt; [apply bins_positive | exact Hlt | exact Hg]).
  apply binned_all. rewrite Forall_forall in *. intros x Hx.
  apply bin_index_mono; [exact Hlt | apply Hall; exact Hx | apply Hle; exact Hx | apply Hg].
Qed.

Lemma last_running (l : list R) (s : R) :
  l <> [] -> last (running s l) 0 = s + fold_right Rplus 0 l.
Proof.
  revert s. induction l as [|x l IH]; intros s H; [contradiction|].
  destruct l as [|y l]; [simpl; lra|].
  change (running s (x :: y :: l)) with ((s + x) :: running (s + x) (y :: l)).
  change (last ((s + x) :: running (s + x) (y :: l)) 0)
    with (last (running (s + x) (y :: l)) 0).
  rewrite IH by discriminate. simpl. lra.
Qed.

(** The last height is one. *)
Lemma last_cdf_values : last (cdf_values a) 0 = 1.
Proof.
  unfold cdf_values. rewrite last_running.
  - rewrite <- (firstn_all (map _ (cdf_counts a))), shares_firstn.
    rewrite length_map, firstn_all, Rplus_0_l, total_cdf_counts.
    apply Rinv_r. apply not_0_INR. pose proof bins_positive. lia.
  - intros E. apply (f_equal (@length R)) in E.
    rewrite length_map, length_cdf_counts in E. pose proof bins_positive. simpl in E. lia.
Qed.

End Cdf.

Ltac int_part k :=
  match goal with
  | |- context [Int_part ?e] =>
      replace (Int_part e) with k%Z by (apply Int_part_spec; simpl; lra)
  end.

Ltac min_max :=
  unfold histogram.amin, histogram.amax; simpl fold_left; unfold Rmin, Rmax;
  repeat match goal with
         | |- context [Rle_dec ?x ?y] => destruct (Rle_dec x y)
         | H : context [Rle_dec ?x ?y] |- _ => destruct (Rle_dec x y)
         end;
  lra.




(** ** The normalisation mode *)

(** C4, as stated, fails: for a single point at the origin the greatest
    radius is 0, the quotient 0/0 is NaN and the 'r' column holds NaN after
    the call. *)
Lemma normalizing_zero_radii_gives_nan :
  pd.lookup "r" (pd.columns (frame (blank origin_only))) = Some [np.Fin 0]
  /\ pd.lookup "r" (pd.columns (frame (snd (kde_cdf_plot true false (blank origin_only)))))
     = Some [np.NaN].
Proof.
  split; [reflexivity|].
  rewrite (kde_frame_norm false _ (np.Fin 0) []) by reflexivity.
  cbn [pd.setitem pd.columns]. rewrite lookup_assign. f_equal.
  unfold normalized, np.div. simpl.
  destruct (Req_dec_T 0 0) as [_|N]; [|contradiction].
  destruct (Rlt_dec 0 0) as [L|_]; [lra | reflexivity].
Qed.

(** C4, amended.  For every non-empty sequence of non-negative finite radii
    whose greatest is positive, [kde_cdf_plot] in normalisation mode first
    overwrites 'r' with the radii divided by the greatest radius and draws
    both subplots from these values; each of them lies in [0, 1] and the
    greatest of them is exactly 1. *)
Theorem normalized_radii_in_unit_interval :
  forall (w : world) (x : R) (rs : list R),
    pd.lookup "r" (pd.columns (frame w)) = Some (map np.Fin (x :: rs)) ->
    Forall (fun r => 0 <= r) (x :: rs) ->
    0 < greatest (x :: rs) ->
    let m := greatest (x :: rs) in
    let a := map (fun r => r / m) (x :: rs) in
    let d' := pd.setitem "r" (map np.Fin a) (frame w) in
    kde_cdf_plot true false w
    = (Ok tt, mk_world d' (canvas w ++ radial_commands d' a "radial distance (%)"))
    /\ Forall (fun r => 0 <= r <= 1) a
    /\ greatest a = 1.
Proof.
  intros w x rs Hr Hpos Hm m a d'.
  assert (x :: rs <> []) as Hne by discriminate.
  destruct (greatest_bounds (x :: rs) Hne) as [Hin Hle].
  assert (Forall (fun r => 0 <= r <= 1) a) as Hunit.
  { unfold a. rewrite Forall_map, Forall_forall in *. intros r Hx.
    specialize (Hpos r Hx). specialize (Hle r Hx). fold m in Hle, Hm.
    assert (0 < / m) by now apply Rinv_0_lt_compat.
    split; [apply Rmult_le_pos; lra|].
    apply (Rmult_le_reg_r m); [exact Hm|].
    unfold Rdiv. rewrite Rmult_assoc, Rinv_l by lra. lra. }
  repeat split.
  - rewrite kde_with_r by (eapply contains_lookup; exact Hr).
    unfold seq_bind at 1. cbn [map] in Hr.
    rewrite (normalize_r_run w (np.Fin x) (map np.Fin rs) Hr).
    rewrite max_from_finite.
    change (np.Fin x :: map np.Fin rs) with (map np.Fin (x :: rs)).
    rewrite div_finite by (unfold greatest in Hm; lra).
    change (histogram.amax x rs) with m. fold a. fold d'.
    rewrite (plot_body_radial true _ (x / m) (map (fun r => r / m) rs)).
    + reflexivity.
    + cbn [frame]. unfold d'. cbn [pd.setitem pd.columns]. rewrite lookup_assign.
      reflexivity.
  - exact Hunit.
  - assert (a <> []) as Hane by (unfold a; discriminate).
    destruct (greatest_bounds a Hane) as [Hgin Hgle].
    apply Rle_antisym.
    + rewrite Forall_forall in Hunit. apply Hunit. exact Hgin.
    + rewrite Forall_forall in Hgle. apply Hgle. unfold a.
      replace 1 with (m / m) by (unfold m; field; lra).
      apply (in_map (fun r => r / m)). exact Hin.
Qed.

Lemma normalized_radii_in_unit_interval_witness :
  Forall (fun r => 0 <= r <= 1) (map (fun r => r / greatest [5; 2]) [5; 2])
  /\ greatest (map (fun r => r / greatest [5; 2]) [5; 2]) = 1.
Proof.
  assert (greatest [5; 2] = 5) as Hg by (unfold greatest; min_max).
  assert (Forall (fun r => 0 <= r) [5; 2]) as Hpos by (repeat constructor; lra).
  assert (0 < greatest [5; 2]) as Hm by (rewrite Hg; lra).
  pose proof (normalized_radii_in_unit_interval (blank two_points) 5 [2] eq_refl Hpos Hm)
    as [_ [H2 H3]].
  split; [exact H2 | exact H3].
Defined.

(** ** Pairwise distances and their histogram *)

Section Pairwise.

Import histogram.

Lemma pdist_rows_finite (P : list (list R)) :
  spd.pdist_rows (map (map np.Fin) P) = map np.Fin (pairwise P).
Proof.
  induction P as [|p rest IH]; [reflexivity|].
  cbn [map spd.pdist_rows pairwise]. rewrite IH, map_app, !map_map. f_equal.
  apply map_ext. intros q.
  rewrite (zip_with_finite np.sub Rminus) by reflexivity.
  apply norm_finite.
Qed.

Lemma pdist_finite (d : nat) (P : list (list R)) :
  spd.pdist (points d P) = map np.Fin (pairwise P).
Proof. apply pdist_rows_finite. Qed.

Lemma length_pairwise_twice (P : list (list R)) :
  (length (pairwise P) * 2 = length P * (length P - 1))%nat.
Proof.
  induction P as [|p rest IH]; [reflexivity|].
  cbn [pairwise length]. rewrite length_app, length_map. nia.
Qed.

(** A set of [n] points has [n (n - 1) / 2] pairs. *)
Lemma length_pairwise (P : list (list R)) :
  length (pairwise P) = (length P * (length P - 1) / 2)%nat.
Proof.
  rewrite <- length_pairwise_twice. symmetry. apply Nat.div_mul. discriminate.
Qed.

(** An entry lies between the edges of its bin. *)
Lemma bin_index_interval (lo hi x : R) (b : nat) :
  (1 <= b)%nat -> lo < hi -> lo <= x <= hi ->
  let i := bin_index lo hi b x in
  lo + INR i * ((hi - lo) / INR b) <= x <= lo + INR (S i) * ((hi - lo) / INR b).
Proof.
  intros Hb Hlt Hx i. subst i. unfold bin_index.
  set (t := (x - lo) * (INR b / (hi - lo))).
  pose proof (Int_part_range t b (offset_range lo hi x b Hlt Hx)) as Hr.
  destruct (base_Int_part t) as [Hfl Hfu].
  destruct (offset_range lo hi x b Hlt Hx) as [Ht0 Htb]. fold t in Ht0, Htb.
  assert (0 < INR b) as HB by (apply lt_0_INR; lia).
  set (wd := (hi - lo) / INR b).
  assert (0 < wd) as Hw by (apply Rdiv_lt_0_compat; lra).
  assert (x - lo = t * wd) as Hxt by (unfold t, wd; field; lra).
  assert (INR (Z.to_nat (Int_part t)) = IZR (Int_part t)) as Hnat
      by (rewrite INR_IZR_INZ, Z2Nat.id by lia; reflexivity).
  destruct (Nat.eqb_spec (Z.to_nat (Int_part t)) b) as [E|NE].
  - assert (IZR (Int_part t) = INR b) as Hk by (rewrite <- Hnat, E; reflexivity).
    assert (t = INR b) as Ht by lra.
    replace (S (b - 1)) with b by lia.
    rewrite minus_INR by lia. simpl INR.
    assert (INR b * wd = hi - lo) as Hfull by (unfold wd; field; lra).
    split; nra.
  - rewrite S_INR, Hnat. split; nra.
Qed.

Lemma outer_edges_cases (a : list R) :
  a <> [] ->
  (least a < greatest a ->
   fst (outer_edges a) = least a /\ snd (outer_edges a) = greatest a)
  /\ (least a = greatest a ->
      fst (outer_edges a) = least a - / 2 /\ snd (outer_edges a) = greatest a + / 2).
Proof.
  intros Ha. destruct a as [|x l]; [contradiction|].
  unfold outer_edges, least, greatest.
  destruct (Req_dec_T (amin x l) (amax x l)) as [E|NE]; cbn [fst snd]; split; intros H;
    try (split; reflexivity); lra.
Qed.

(** What [in_sample_dist] does with finite points and at least one bin. *)
Lemma in_sample_dist_run (d : nat) (P : list (list R)) (bins : Z) (w : world) :
  (1 <= bins)%Z ->
  in_sample_dist (points d P) bins w
  = let b := Z.to_nat bins in
    let lo := fst (outer_edges (pairwise P)) in
    let hi := snd (outer_edges (pairwise P)) in
    (Ok tt,
     mk_world (frame w)
       (canvas w
        ++ [ plt.figure 15 6;
             plt.hist plt.gca (linspace lo hi b)
               (map (fun c => np.Fin (INR c))
                    (bincount (map (bin_index lo hi b) (pairwise P)) b));
             plt.xlabel plt.gca "inter-sample distance";
             plt.ylabel plt.gca "count" ])).
Proof.
  intros Hb. unfold in_sample_dist. rewrite pdist_finite.
  unfold seq_bind at 1, draw at 1. unfold seq_bind at 1.
  rewrite ax_hist_finite by exact Hb.
  unfold seq_bind, draw. cbn [frame canvas]. rewrite heights_counts.
  rewrite <- !app_assoc. reflexivity.
Qed.

End Pairwise.

(** C2, as stated, fails on the range of the bins: for the four points 0,
    1, 2 and 3 on a line and three bins, the drawn edges start at the least
    distance, 1, not at 0. *)
Lemma histogram_starts_at_least_distance :
  pairwise four_points = [1; 2; 3; 1; 2; 1]
  /\ exists edges heights,
      in_sample_dist (points 1 four_points) 3 (blank no_rows)
      = (Ok tt,
         mk_world no_rows
           [ plt.figure 15 6; plt.hist plt.gca edges heights;
             plt.xlabel plt.gca "inter-sample distance"; plt.ylabel plt.gca "count" ])
      /\ nth 0 edges 0 = 1.
Proof.
  assert (forall u v : R, distance [u] [v] = Rabs (u - v)) as Hd.
  { intros u v. unfold distance, euclidean_norm. simpl.
    rewrite Rplus_0_r. apply sqrt_Rsqr_abs. }
  assert (pairwise four_points = [1; 2; 3; 1; 2; 1]) as HD.
  { unfold four_points. simpl. rewrite !Hd.
    repeat (apply f_equal2; [unfold Rabs; destruct Rcase_abs; lra|]). reflexivity. }
  split; [exact HD|].
  assert (histogram.outer_edges [1; 2; 3; 1; 2; 1] = (1, 3)) as Hedges.
  { unfold histogram.outer_edges.
    assert (histogram.amin 1 [2; 3; 1; 2; 1] = 1) as -> by min_max.
    assert (histogram.amax 1 [2; 3; 1; 2; 1] = 3) as -> by min_max.
    destruct (Req_dec_T 1 3); [lra | reflexivity]. }
  eexists. eexists. split.
  - rewrite in_sample_dist_run by lia. cbv zeta. rewrite HD, Hedges. reflexivity.
  - simpl. lra.
Qed.

(** C2, amended.  For every set of [n >= 2] points with finite coordinates
    and every bin count [b >= 1], [in_sample_dist] computes the
    [n (n - 1) / 2] pairwise Euclidean distances and draws (it returns
    nothing) their histogram over [b] bins of equal width that span the
    interval from the least to the greatest distance, widened by one half on
    either side when all distances are equal; every distance is counted in
    the bin it lies in and the counts add up to [n (n - 1) / 2]. *)
Theorem pairwise_distance_histogram :
  forall (d : nat) (P : list (list R)) (bins : Z) (w : world),
    (2 <= length P)%nat -> (1 <= bins)%Z ->
    let n := length P in
    let b := Z.to_nat bins in
    let D := pairwise P in
    let lo := fst (histogram.outer_edges D) in
    let hi := snd (histogram.outer_edges D) in
    let idx := map (histogram.bin_index lo hi b) D in
    let counts := histogram.bincount idx b in
    let edges := histogram.linspace lo hi b in
    spd.pdist (points d P) = map np.Fin D
    /\ length D = (n * (n - 1) / 2)%nat
    /\ in_sample_dist (points d P) bins w
       = (Ok tt,
          mk_world (frame w)
            (canvas w
             ++ [ plt.figure 15 6;
                  plt.hist plt.gca edges (map (fun c => np.Fin (INR c)) counts);
                  plt.xlabel plt.gca "inter-sample distance";
                  plt.ylabel plt.gca "count" ]))
    /\ length counts = b
    /\ length edges = S b
    /\ histogram.total counts = (n * (n - 1) / 2)%nat
    /\ (forall i, (i < b)%nat -> nth (S i) edges 0 - nth i edges 0 = (hi - lo) / INR b)
    /\ nth 0 edges 0 = lo
    /\ nth b edges 0 = hi
    /\ (least D < greatest D -> lo = least D /\ hi = greatest D)
    /\ (least D = greatest D -> lo = least D - / 2 /\ hi = greatest D + / 2)
    /\ (forall i, nth i counts O = count_occ Nat.eq_dec idx i)
    /\ Forall (fun x => nth (histogram.bin_index lo hi b x) edges 0 <= x
                        <= nth (S (histogram.bin_index lo hi b x)) edges 0) D.
Proof.
  intros d P bins w Hn Hbins n b D lo hi idx counts edges.
  assert (1 <= b)%nat as Hb by (unfold b; lia).
  assert (length D = (n * (n - 1) / 2)%nat) as HlenD by apply length_pairwise.
  assert (D <> []) as HD.
  { intros E. pose proof (length_pairwise_twice P) as H2. fold D in H2.
    rewrite E in H2. simpl in H2. nia. }
  destruct (outer_edges_spec D lo hi) as [Hlt Hall];
    [unfold lo, hi; now destruct (histogram.outer_edges D)|].
  assert (Forall (fun k => (k < b)%nat) idx) as Hidx.
  { unfold idx. rewrite Forall_map. eapply Forall_impl; [|exact Hall].
    simpl. intros x Hx. now apply bin_index_lt. }
  destruct (linspace_ends lo hi b Hb) as [H0 Hlast].
  destruct (outer_edges_cases D HD) as [Hc1 Hc2].
  repeat apply conj.
  - apply pdist_finite.
  - exact HlenD.
  - now apply in_sample_dist_run.
  - now apply length_bincount.
  - apply length_linspace.
  - unfold counts. rewrite total_bincount. unfold idx. now rewrite length_map.
  - intros i Hi. unfold edges.
    rewrite (nth_linspace lo hi b (S i)), (nth_linspace lo hi b i) by lia.
    rewrite S_INR. ring.
  - exact H0.
  - exact Hlast.
  - exact Hc1.
  - exact Hc2.
  - intros i. apply nth_bincount.
  - eapply Forall_impl; [|exact Hall]. cbv beta. intros x Hx.
    pose proof (bin_index_lt lo hi x b Hb Hlt Hx) as Hi.
    unfold edges.
    rewrite (nth_linspace lo hi b (S (histogram.bin_index lo hi b x))),
      (nth_linspace lo hi b (histogram.bin_index lo hi b x)) by lia.
    now apply bin_index_interval.
Qed.

Lemma pairwise_distance_histogram_witness :
  length (pairwise four_points) = 6%nat
  /\ histogram.total
       (histogram.bincount
          (map (histogram.bin_index (fst (histogram.outer_edges (pairwise four_points)))
                                    (snd (histogram.outer_edges (pairwise four_points))) 3)
               (pairwise four_points)) 3) = 6%nat.
Proof.
  assert (2 <= length four_points)%nat as Hn by (simpl; lia).
  assert (1 <= 3)%Z as Hb by lia.
  pose proof (pairwise_distance_histogram 1 four_points 3 (blank no_rows) Hn Hb)
    as [_ [H2 [_ [_ [_ [H6 _]]]]]].
  split; [exact H2 | exact H6].
Defined.

(** ** Failures on degenerate input *)

Section Degenerate.

Lemma pdist_few_rows (X : np.ndarray) :
  (length (np.rows X) < 2)%nat -> spd.pdist X = [].
Proof.
  unfold spd.pdist. destruct (np.rows X) as [|p [|q rest]]; simpl; intros H;
    [reflexivity | reflexivity | lia].
Qed.

Lemma in_sample_dist_no_bins (X : np.ndarray) (bins : Z) (w : world) :
  (bins < 1)%Z ->
  in_sample_dist X bins w
  = (Raise ValueError, mk_world (frame w) (canvas w ++ [plt.figure 15 6])).
Proof.
  intros Hb. unfold in_sample_dist.
  unfold seq_bind at 1, draw at 1. unfold seq_bind at 1.
  now rewrite ax_hist_no_bins by exact Hb.
Qed.

Lemma in_sample_dist_few_points (X : np.ndarray) (bins : Z) (w : world) :
  (length (np.rows X) < 2)%nat -> (1 <= bins)%Z ->
  fst (in_sample_dist X bins w) = Ok tt.
Proof.
  intros Hn Hb. unfold in_sample_dist. rewrite (pdist_few_rows X Hn).
  unfold seq_bind at 1, draw at 1. unfold seq_bind at 1.
  change (@nil np.float64) with (map np.Fin []).
  rewrite ax_hist_finite by exact Hb. reflexivity.
Qed.

Lemma kde_no_radii (w : world) :
  pd.lookup "r" (pd.columns (frame w)) = Some [] ->
  kde_cdf_plot false false w
  = (Raise ValueError, mk_world (frame w) (canvas w ++ kde_commands (frame w) [])).
Proof.
  intros Hr. rewrite kde_with_r by (eapply contains_lookup; exact Hr).
  unfold seq_bind at 1, ret.
  unfold plot_body, seq_bind, df, draw, lift, pd.getitem.
  cbn [frame canvas]. rewrite Hr.
  unfold radial_branch, seq_bind, df, lift, pd.getitem. cbn [frame canvas]. rewrite Hr.
  unfold series_plot_hist. rewrite ax_hist_no_bins by (simpl; lia).
  unfold kde_commands. rewrite <- !app_assoc. reflexivity.
Qed.

End Degenerate.

(** C6, as stated, fails: on a single point and three bins the histogram
    builder completes; with no bins it raises [ValueError], numpy's, once
    the figure has been created; and the profile builder raises two more
    kinds of its own, [AssertionError] and [NotImplementedError]. *)
Lemma histogram_builder_does_not_validate :
  fst (in_sample_dist (points 1 [[0]]) 3 (blank no_rows)) = Ok tt
  /\ in_sample_dist (points 1 four_points) 0 (blank no_rows)
     = (Raise ValueError, mk_world no_rows [plt.figure 15 6])
  /\ fst (kde_cdf_plot false false (blank two_points_no_r))
     = Raise (AssertionError assert_msg)
  /\ fst (kde_cdf_plot false true (blank two_points))
     = Raise (NotImplementedError vol_msg).
Proof.
  repeat apply conj.
  - apply in_sample_dist_few_points; simpl; lia.
  - rewrite in_sample_dist_no_bins by lia. reflexivity.
  - rewrite kde_without_r by reflexivity. reflexivity.
  - rewrite kde_with_r by reflexivity. unfold seq_bind, ret.
    now rewrite (plot_body_volume false _ [np.Fin 5; np.Fin 2]) by reflexivity.
Qed.

(** C6, amended.  Neither builder validates these inputs itself.  With a bin
    count below one [in_sample_dist] raises the [ValueError] of the
    histogram call, after the figure has been created; with fewer than two
    points and at least one bin it completes.  On an empty 'r' column
    [kde_cdf_plot] raises [ValueError]: in normalisation mode from [max],
    before anything is drawn, and in normal mode, [vol] off, from the
    histogram call with zero bins, after the KDE subplot. *)
Theorem degenerate_inputs_surface_as_value_errors :
  (forall (X : np.ndarray) (bins : Z) (w : world),
      (bins < 1)%Z ->
      in_sample_dist X bins w
      = (Raise ValueError, mk_world (frame w) (canvas w ++ [plt.figure 15 6])))
  /\ (forall (X : np.ndarray) (bins : Z) (w : world),
         (length (np.rows X) < 2)%nat -> (1 <= bins)%Z ->
         fst (in_sample_dist X bins w) = Ok tt)
  /\ (forall (vol : bool) (w : world),
         pd.lookup "r" (pd.columns (frame w)) = Some [] ->
         kde_cdf_plot true vol w = (Raise ValueError, w))
  /\ (forall (w : world),
         pd.lookup "r" (pd.columns (frame w)) = Some [] ->
         kde_cdf_plot false false w
         = (Raise ValueError,
            mk_world (frame w) (canvas w ++ kde_commands (frame w) []))).
Proof.
  repeat apply conj.
  - apply in_sample_dist_no_bins.
  - apply in_sample_dist_few_points.
  - apply kde_frame_norm_empty.
  - apply kde_no_radii.
Qed.

Lemma degenerate_inputs_surface_as_value_errors_witness :
  in_sample_dist (points 1 four_points) (-2) (blank no_rows)
  = (Raise ValueError, mk_world no_rows [plt.figure 15 6])
  /\ fst (in_sample_dist (points 2 []) 5 (blank no_rows)) = Ok tt
  /\ kde_cdf_plot true false (blank no_rows) = (Raise ValueError, blank no_rows)
  /\ fst (kde_cdf_plot false false (blank no_rows)) = Raise ValueError.
Proof.
  destruct degenerate_inputs_surface_as_value_errors as [H1 [H2 [H3 H4]]].
  repeat apply conj.
  - rewrite H1 by lia. reflexivity.
  - apply H2; simpl; lia.
  - apply H3. reflexivity.
  - rewrite H4 by reflexivity. reflexivity.
Defined.

(** ** Failures of the radius calculator *)

Section RadiusFailures.

Lemma as_floats_numeric_all (v : list object) :
  forallb spd.numeric v = true ->
  exists xs, spd.as_floats v = Some xs /\ length xs = length v.
Proof.
  induction v as [|o v IH]; simpl; intros H.
  - now exists [].
  - destruct o; try discriminate. destruct (IH H) as [xs [E L]].
    exists (x :: xs). rewrite E. simpl. now rewrite L.
Qed.

Lemma as_floats_not_numeric (v : list object) :
  forallb spd.numeric v = false -> spd.as_floats v = None.
Proof.
  induction v as [|o v IH]; simpl; intros H; [discriminate|].
  destruct o; try reflexivity. now rewrite IH.
Qed.

End RadiusFailures.



(** ** The blob adapter *)

Section Frames.

Lemma mapM_total {A B : Type} (f : A -> result B) (xs : list A) :
  (forall x, In x xs -> exists y, f x = Ok y) ->
  exists ys, mapM f xs = Ok ys /\ length ys = length xs.
Proof.
  induction xs as [|x xs IH]; intros H; simpl.
  - now exists [].
  - destruct (H x (or_introl eq_refl)) as [y Hy].
    destruct IH as [ys [Hys Hlen]]; [intros z Hz; apply H; now right|].
    exists (y :: ys). rewrite Hy, Hys. simpl. now rewrite Hlen.
Qed.

Lemma row_numeric (d : pd.DataFrame) (i : nat) :
  forallb spd.numeric (pd.row d i) = true.
Proof.
  unfold pd.row. induction (pd.columns d) as [|c cols IH]; simpl; auto.
Qed.

(** On the rows of a frame [radius] never fails. *)
Lemma apply_radius_total (d : pd.DataFrame) :
  exists r, pd.apply_rows radius d = Ok r /\ length r = pd.nrows d.
Proof.
  unfold pd.apply_rows.
  destruct (mapM_total radius (map (pd.row d) (seq 0 (pd.nrows d)))) as [r [Hr Hlen]].
  - intros v Hv. apply in_map_iff in Hv. destruct Hv as [i [<- _]].
    pose proof (row_numeric d i) as Hnum.
    destruct (as_floats_numeric_all _ Hnum) as [xs [Hxs Hl]].
    unfold radius, spd.euclidean. rewrite Hxs.
    unfold np.broadcast, np.zeros. rewrite repeat_length, Hl, Nat.eqb_refl.
    simpl. eexists. reflexivity.
  - exists r. split; [exact Hr|]. now rewrite Hlen, length_map, length_seq.
Qed.

Lemma length_column_names (X : np.ndarray) :
  length (column_names X) = np.ncols X.
Proof. unfold column_names. now rewrite length_map, length_seq. Qed.

Lemma no_r_in_columns (names : list string) (js : list nat)
  (f : nat -> list np.float64) :
  Forall (fun s => String.eqb s "r" = false) names ->
  existsb (fun c : string * list np.float64 => String.eqb (fst c) "r")
          (map (fun jn : nat * string => (snd jn, f (fst jn))) (combine js names))
  = false.
Proof.
  revert js. induction names as [|s names IH]; intros [|j js] H; simpl; auto.
  inversion H as [|? ? Hs Hn]; subst. rewrite Hs. simpl. now apply IH.
Qed.

Lemma column_names_not_r (X : np.ndarray) :
  Forall (fun s => String.eqb s "r" = false) (column_names X).
Proof.
  unfold column_names. rewrite Forall_map, Forall_forall. intros i _. reflexivity.
Qed.

(** The frame made of an array has a column per array column, named
    [x0], [x1], ..., and none named 'r'. *)
Lemma from_array_columns (X : np.ndarray) :
  exists d,
    pd.from_array X (column_names X) = Ok d
    /\ pd.nrows d = length (np.rows X)
    /\ pd.width d = np.ncols X
    /\ pd.contains "r" d = false.
Proof.
  unfold pd.from_array. rewrite length_column_names, Nat.eqb_refl.
  eexists. split; [reflexivity|]. repeat apply conj.
  - reflexivity.
  - unfold pd.width. cbn [pd.columns].
    rewrite length_map, length_combine, length_seq, length_column_names.
    apply Nat.min_id.
  - unfold pd.contains. cbn [pd.columns].
    apply (no_r_in_columns (column_names X) (seq 0 (np.ncols X))
             (fun j => map (fun row => nth j row np.NaN) (np.rows X))).
    apply column_names_not_r.
Qed.

End Frames.

Section BlobAdapter.

Variable G : Type.
Variable make_blobs : G -> nat -> nat -> nat -> R * R -> result (np.ndarray * list nat).
Hypothesis make_blobs_shape : make_blobs_contract make_blobs.


End BlobAdapter.

Lemma grid_blobs_contract : make_blobs_contract grid_blobs.
Proof.
  intros g n d k box Hn Hd Hk. unfold grid_blobs.
  eexists. eexists. split; [reflexivity|]. cbn [np.rows np.ncols].
  repeat apply conj.
  - now rewrite !length_map, length_seq.
  - reflexivity.
  - rewrite Forall_map, Forall_map, Forall_forall. intros i _. apply repeat_length.
  - now rewrite length_map, length_seq.
  - rewrite Forall_map, Forall_forall. intros i _. apply Nat.mod_upper_bound. lia.
Qed.


(** * Properties of the interfaces notebook *)

(** ** The dog's sound *)

(** X1.  Whatever [random.random()] draws in [0, 1), the dog's index is 0
    or 1 and [make_a_sound] never fails: it answers 'Arf' up to and
    including the tie at one half, which rounds to the even 0, and
    'Grrrrrr' above it. *)
Theorem dog_sound_in_bounds :
  forall u : R,
    0 <= u < 1 ->
    Dog.make_a_sound u
    = interfaces.Return (if Rle_dec u (/ 2) then "Arf" else "Grrrrrr").
Proof.
  intros u [H0 H1]. unfold Dog.make_a_sound, interfaces.round.
  assert (Int_part u = 0%Z) as -> by (symmetry; apply Int_part_spec; simpl; lra).
  simpl IZR. rewrite Rminus_0_r.
  destruct (Rlt_dec u (/ 2)) as [L|NL].
  - destruct (Rle_dec u (/ 2)); [reflexivity | lra].
  - destruct (Rlt_dec (/ 2) u) as [G|NG].
    + destruct (Rle_dec u (/ 2)); [lra | reflexivity].
    + destruct (Rle_dec u (/ 2)); [reflexivity | lra].
Qed.

Lemma dog_sound_in_bounds_witness :
  Dog.make_a_sound (/ 2) = interfaces.Return "Arf".
Proof.
  assert (0 <= / 2 < 1) as H by lra.
  rewrite (dog_sound_in_bounds (/ 2) H).
  destruct (Rle_dec (/ 2) (/ 2)); [reflexivity | lra].
Defined.

(** ** The ordered list of things *)

Section Sorting.

Import interfaces.

Lemma insert_perm (x : Z) (l : list Z) : Permutation (x :: l) (insert x l).
Proof.
  induction l as [|y l IH]; simpl; [reflexivity|].
  destruct (x <=? y)%Z; [reflexivity|].
  rewrite perm_swap. now constructor.
Qed.

Lemma sorted_perm (l : list Z) : Permutation l (sorted l).
Proof.
  induction l as [|x l IH]; simpl; [constructor|].
  rewrite <- insert_perm. now constructor.
Qed.

Lemma insert_sorted (x : Z) (l : list Z) :
  StronglySorted Z.le l -> StronglySorted Z.le (insert x l).
Proof.
  induction l as [|y l IH]; intros H; simpl.
  - repeat constructor.
  - inversion H as [|? ? Hl Hy]; subst.
    destruct (Z.leb_spec x y) as [L|G].
    + constructor; [exact H|]. constructor; [exact L|].
      eapply Forall_impl; [|exact Hy]. simpl. intros z Hz. lia.
    + constructor; [now apply IH|].
      rewrite <- (insert_perm x l). constructor; [lia | exact Hy].
Qed.

Lemma sorted_sorted (l : list Z) : StronglySorted Z.le (sorted l).
Proof.
  induction l as [|x l IH]; simpl; [constructor|]. now apply insert_sorted.
Qed.

Lemma sorted_fixed (l : list Z) : StronglySorted Z.le l -> sorted l = l.
Proof.
  induction l as [|x l IH]; intros H; simpl; [reflexivity|].
  inversion H as [|? ? Hl Hx]; subst. rewrite IH by exact Hl.
  destruct l as [|y l]; [reflexivity|]. simpl.
  inversion Hx as [|? ? Hxy _]; subst.
  destruct (Z.leb_spec x y); [reflexivity | lia].
Qed.

End Sorting.

(** X2.  The ordered list hands its things back in ascending order, the
    same things as many times as they came in. *)
Theorem ordered_things_sorted_permutation :
  forall x : list Z,
    let got := OrderedListOfThings.get_the_things (ListOfThings.__init__ x) in
    StronglySorted Z.le got
    /\ Permutation (ListOfThings.get_the_things (ListOfThings.__init__ x)) got
    /\ length got = length x.
Proof.
  intros x got. unfold got, OrderedListOfThings.get_the_things,
    ListOfThings.get_the_things. cbn [ListOfThings.things].
  repeat apply conj.
  - apply sorted_sorted.
  - apply sorted_perm.
  - symmetry. apply Permutation_length. apply sorted_perm.
Qed.

(** X3.  Ordering what is ordered changes nothing, and the subclass agrees
    with its base class exactly on the lists that are in ascending order
    already. *)
Theorem ordered_things_agree_on_sorted :
  forall x : list Z,
    let base := ListOfThings.get_the_things (ListOfThings.__init__ x) in
    let ordered := OrderedListOfThings.get_the_things (ListOfThings.__init__ x) in
    OrderedListOfThings.get_the_things (ListOfThings.__init__ ordered) = ordered
    /\ (base = ordered <-> StronglySorted Z.le x).
Proof.
  intros x base ordered. unfold base, ordered, OrderedListOfThings.get_the_things,
    ListOfThings.get_the_things. cbn [ListOfThings.things].
  split.
  - apply sorted_fixed. apply sorted_sorted.
  - split; intros H.
    + rewrite H. apply sorted_sorted.
    + symmetry. now apply sorted_fixed.
Qed.

Lemma ordered_things_agree_on_sorted_witness :
  ListOfThings.get_the_things (ListOfThings.__init__ [1; 2; 3; 4]%Z)
  = OrderedListOfThings.get_the_things (ListOfThings.__init__ [1; 2; 3; 4]%Z).
Proof.
  apply (proj2 (ordered_things_agree_on_sorted [1; 2; 3; 4]%Z)).
  repeat constructor; lia.
Defined.

(** ** The doubling dictionary *)

Section Doppel.

Import interfaces.

Lemma dict_get_set (d : DoppelDict.t) (k : string) (v : DoppelDict.value) :
  DoppelDict.__getitem__ (DoppelDict.dict_setitem k v d) k = Return v.
Proof.
  induction d as [|[k0 v0] d IH]; simpl.
  - now rewrite String.eqb_refl.
  - destruct (String.eqb k0 k) eqn:E; simpl; rewrite E; [reflexivity | exact IH].
Qed.

Lemma dict_get_set_other (d : DoppelDict.t) (k k' : string) (v : DoppelDict.value) :
  k' <> k ->
  DoppelDict.__getitem__ (DoppelDict.dict_setitem k v d) k' = DoppelDict.__getitem__ d k'.
Proof.
  intros Hne. induction d as [|[k0 v0] d IH]; simpl.
  - destruct (String.eqb_spec k k'); [congruence | reflexivity].
  - destruct (String.eqb_spec k0 k) as [->|Hk]; simpl.
    + destruct (String.eqb_spec k k'); [congruence | reflexivity].
    + destruct (String.eqb k0 k'); [reflexivity | exact IH].
Qed.

Lemma init_keeps (kwargs : list (string * DoppelDict.value)) (acc : DoppelDict.t)
  (k : string) :
  ~ In k (map fst kwargs) ->
  DoppelDict.__getitem__
    (fold_left (fun d kv => DoppelDict.dict_setitem (fst kv) (snd kv) d) kwargs acc) k
  = DoppelDict.__getitem__ acc k.
Proof.
  revert acc. induction kwargs as [|[k0 v0] kwargs IH]; intros acc Hk; simpl; [reflexivity|].
  simpl in Hk. rewrite IH by tauto. apply dict_get_set_other. intros E. apply Hk. now left.
Qed.

Lemma init_stores (kwargs : list (string * DoppelDict.value)) (acc : DoppelDict.t)
  (k : string) (v : DoppelDict.value) :
  NoDup (map fst kwargs) -> In (k, v) kwargs ->
  DoppelDict.__getitem__
    (fold_left (fun d kv => DoppelDict.dict_setitem (fst kv) (snd kv) d) kwargs acc) k
  = Return v.
Proof.
  revert acc. induction kwargs as [|[k0 v0] kwargs IH]; intros acc Hnd Hin; [contradiction|].
  simpl in Hnd. inversion Hnd as [|? ? Hk0 Hrest]; subst. simpl.
  destruct Hin as [E|Hin].
  - inversion E; subst. rewrite init_keeps by exact Hk0. apply dict_get_set.
  - now apply IH.
Qed.

End Doppel.

(** X4.  After [dd[key] = value] the dictionary answers [[value, value]]
    for that key and what it answered before for every other key. *)
Theorem doppel_setitem_doubles :
  forall (dd : DoppelDict.t) (key : string) (v : DoppelDict.value),
    DoppelDict.__getitem__ (DoppelDict.__setitem__ dd key v) key
    = interfaces.Return (DoppelDict.List [v; v])
    /\ forall other, other <> key ->
         DoppelDict.__getitem__ (DoppelDict.__setitem__ dd key v) other
         = DoppelDict.__getitem__ dd other.
Proof.
  intros dd key v. unfold DoppelDict.__setitem__. split.
  - apply dict_get_set.
  - intros other H. now apply dict_get_set_other.
Qed.

Lemma doppel_setitem_doubles_witness :
  DoppelDict.__getitem__
    (DoppelDict.__setitem__ (DoppelDict.__init__ [("one", DoppelDict.Int 1)]) "two"
                            (DoppelDict.Int 2)) "one"
  = interfaces.Return (DoppelDict.Int 1).
Proof.
  rewrite (proj2 (doppel_setitem_doubles
                    (DoppelDict.__init__ [("one", DoppelDict.Int 1)]) "two"
                    (DoppelDict.Int 2)) "one"); [reflexivity | discriminate].
Defined.

(** X5.  The constructor does not double: every keyword argument is stored
    as it was given, so the same pair set through the constructor and set
    by assignment reads back differently. *)
Theorem doppel_constructor_stores_plain :
  forall (kwargs : list (string * DoppelDict.value)) (key : string) (v : DoppelDict.value),
    NoDup (map fst kwargs) -> In (key, v) kwargs ->
    DoppelDict.__getitem__ (DoppelDict.__init__ kwargs) key = interfaces.Return v
    /\ DoppelDict.__getitem__ (DoppelDict.__setitem__ (DoppelDict.__init__ kwargs) key v) key
       <> DoppelDict.__getitem__ (DoppelDict.__init__ kwargs) key.
Proof.
  intros kwargs key v Hnd Hin.
  assert (DoppelDict.__getitem__ (DoppelDict.__init__ kwargs) key = interfaces.Return v) as H
      by now apply init_stores.
  split; [exact H|]. rewrite H. unfold DoppelDict.__setitem__. rewrite dict_get_set.
  intros E. inversion E as [E']. apply (f_equal DoppelDict.size) in E'.
  simpl in E'. lia.
Qed.

Lemma doppel_constructor_stores_plain_witness :
  DoppelDict.__getitem__ (DoppelDict.__init__ [("one", DoppelDict.Int 1)]) "one"
  = interfaces.Return (DoppelDict.Int 1).
Proof.
  assert (NoDup (map fst [("one", DoppelDict.Int 1)])) as Hnd
      by (repeat constructor; simpl; tauto).
  assert (In ("one", DoppelDict.Int 1) [("one", DoppelDict.Int 1)]) as Hin by (now left).
  exact (proj1 (doppel_constructor_stores_plain _ "one" (DoppelDict.Int 1) Hnd Hin)).
Defined.

(** ** The vector: construction, norm and truth value *)

Section VectorNorm.

Import interfaces.

Lemma squares_finite (v : list R) :
  fold_left np.add (map (fun x => np.mul x x) (map np.Fin v)) (np.Fin 0)
  = np.Fin (sum_sq v).
Proof.
  rewrite map_map. cbn [np.mul].
  change (map (fun x : R => np.Fin (x * x)) v) with (map (fun x : R => np.Fin ((fun y => y * y) x)) v).
  rewrite <- (map_map (fun y => y * y) np.Fin), sum_finite, Rplus_0_l.
  f_equal. induction v as [|x v IH]; simpl; [reflexivity|]. now rewrite IH.
Qed.

(** A running sum of squares is a non-negative number, plus infinity or
    NaN. *)
Lemma squares_never_negative (l : list np.float64) (acc : np.float64) :
  match acc with np.Fin a => 0 <= a | np.NInf => False | _ => True end ->
  match fold_left np.add (map (fun x => np.mul x x) l) acc with
  | np.Fin a => 0 <= a
  | np.NInf => False
  | _ => True
  end.
Proof.
  revert acc. induction l as [|x l IH]; intros acc Hacc; simpl; [exact Hacc|].
  apply IH. destruct acc as [a| | |]; destruct x as [y| | |]; simpl; try exact I;
    try contradiction. nra.
Qed.

Lemma sum_sq_zero (v : list R) : sum_sq v = 0 <-> Forall (fun x => x = 0) v.
Proof.
  induction v as [|x v IH]; simpl.
  - split; [constructor | reflexivity].
  - pose proof (sum_sq_nonneg v) as Hv. split; intros H.
    + assert (x * x = 0 /\ sum_sq v = 0) as [Hx Hs] by (split; nra).
      constructor; [nra | now apply IH].
    + inversion H as [|? ? Hx Hrest]; subst. apply IH in Hrest. rewrite Hrest. lra.
Qed.

End VectorNorm.





(** ** The vector: equality and hash *)

Section VectorEq.

Import interfaces.

Lemma float_eq_true (a b : np.float64) : float_eq a b = true -> a = b.
Proof.
  destruct a, b; simpl; try discriminate; try reflexivity.
  destruct (Req_dec_T x x0); [now subst | discriminate].
Qed.

Lemma float_eq_refl (a : np.float64) : float_eq a a = true <-> a <> np.NaN.
Proof.
  destruct a; simpl; split; try discriminate; try reflexivity; try congruence.
  intros _. destruct (Req_dec_T x x); [reflexivity | congruence].
Qed.

Lemma float_eq_sym (a b : np.float64) : float_eq a b = float_eq b a.
Proof.
  destruct a, b; simpl; try reflexivity.
  destruct (Req_dec_T x x0), (Req_dec_T x0 x); congruence.
Qed.

Lemma fold_lxor (l : list Z) (a : Z) :
  fold_left Z.lxor l a = Z.lxor a (fold_right Z.lxor 0%Z l).
Proof.
  revert a. induction l as [|x l IH]; intros a; simpl.
  - now rewrite Z.lxor_0_r.
  - now rewrite IH, Z.lxor_assoc.
Qed.

Lemma lxor_perm (l l' : list Z) :
  Permutation l l' -> fold_right Z.lxor 0%Z l = fold_right Z.lxor 0%Z l'.
Proof.
  induction 1 as [|x l l' _ IH|x y l|l1 l2 l3 _ IH1 _ IH2]; simpl.
  - reflexivity.
  - now rewrite IH.
  - rewrite <- !Z.lxor_assoc. f_equal. apply Z.lxor_comm.
  - now rewrite IH1.
Qed.

Lemma eq_same_components (a b : list np.float64) :
  Vector.__eq__ (Vector.mk a) b = true -> a = b.
Proof.
  unfold Vector.__eq__, Vector.__len__, Vector.__iter__.
  cbn [Vector._components]. intros H. apply andb_true_iff in H. destruct H as [Hlen Hall].
  apply Nat.eqb_eq in Hlen. revert b Hlen Hall.
  induction a as [|x a IH]; intros [|y b] Hlen Hall; simpl in *; try discriminate;
    [reflexivity|].
  apply andb_true_iff in Hall. destruct Hall as [Hxy Hrest].
  apply float_eq_true in Hxy. subst. f_equal. apply IH; [lia | exact Hrest].
Qed.

End VectorEq.

(** X9.  [v == other] holds only when [other] has the very components of
    [v]; a vector equals itself exactly when none of its components is NaN;
    and the comparison gives the same answer from either side. *)
Theorem vector_eq_components :
  (forall (self : Vector.t) (other : list np.float64),
      Vector.__eq__ self other = true -> Vector._components self = other)
  /\ (forall self : Vector.t,
         Vector.__eq__ self (Vector.__iter__ self) = true
         <-> ~ In np.NaN (Vector._components self))
  /\ (forall a b : list np.float64,
         Vector.__eq__ (Vector.mk a) b = Vector.__eq__ (Vector.mk b) a).
Proof.
  repeat apply conj.
  - intros [a] b H. now apply eq_same_components.
  - intros [a]. unfold Vector.__eq__, Vector.__len__, Vector.__iter__.
    cbn [Vector._components]. rewrite Nat.eqb_refl. cbn [andb].
    induction a as [|x a IH]; simpl.
    + split; [intros _ []| reflexivity].
    + rewrite andb_true_iff, IH, float_eq_refl. split.
      * intros [Hx Ha] [E|Hin]; [congruence | contradiction].
      * intros H. split; [intros E; apply H; now left | intros Hin; apply H; now right].
  - intros a b. unfold Vector.__eq__, Vector.__len__, Vector.__iter__.
    cbn [Vector._components]. rewrite (Nat.eqb_sym (length a)). f_equal.
    revert b. induction a as [|x a IH]; intros [|y b]; simpl; try reflexivity.
    now rewrite IH, float_eq_sym.
Qed.

Lemma vector_eq_components_witness :
  Vector._components (Vector.mk [np.Fin 1; np.Fin 2]) = [np.Fin 1; np.Fin 2]
  /\ Vector.__eq__ (Vector.mk [np.NaN]) [np.NaN] = false.
Proof.
  destruct vector_eq_components as [H1 [H2 _]]. split.
  - apply H1. unfold Vector.__eq__. simpl.
    destruct (Req_dec_T 1 1) as [_|N]; [|congruence].
    destruct (Req_dec_T 2 2) as [_|N]; [reflexivity | congruence].
  - reflexivity.
Defined.

(** X10.  The hash does not see the order of the components: vectors whose
    components are a rearrangement of each other hash alike, and so do
    vectors that compare equal. *)
Theorem vector_hash_ignores_order :
  forall (hash : np.float64 -> Z) (v w : Vector.t),
    (Permutation (Vector._components v) (Vector._components w) ->
     Vector.__hash__ hash v = Vector.__hash__ hash w)
    /\ (Vector.__eq__ v (Vector.__iter__ w) = true ->
        Vector.__hash__ hash v = Vector.__hash__ hash w).
Proof.
  intros hash v w. split.
  - intros H. unfold Vector.__hash__, Vector.__iter__. rewrite !fold_lxor. f_equal.
    apply lxor_perm. now apply Permutation_map.
  - intros H. destruct v as [a], w as [b]. apply eq_same_components in H.
    now subst.
Qed.

Lemma vector_hash_ignores_order_witness :
  Vector.__hash__ (fun _ => 7%Z) (Vector.mk [np.Fin 1; np.Fin 2])
  = Vector.__hash__ (fun _ => 7%Z) (Vector.mk [np.Fin 2; np.Fin 1]).
Proof.
  apply (proj1 (vector_hash_ignores_order (fun _ => 7%Z) (Vector.mk [np.Fin 1; np.Fin 2])
                  (Vector.mk [np.Fin 2; np.Fin 1]))).
  apply perm_swap.
Defined.

(** ** The vector: indexing, slicing and shortcut names *)

Section VectorIndex.

Import interfaces.

Lemma getitem_front {A : Type} (l : list A) (i : Z) (d : A) :
  (0 <= i < Z.of_nat (length l))%Z ->
  getitem l i = Return (nth (Z.to_nat i) l d).
Proof.
  intros H. unfold getitem.
  assert ((i <? 0)%Z = false) as -> by (apply Z.ltb_ge; lia).
  assert ((i <? 0)%Z = false) as -> by (apply Z.ltb_ge; lia).
  assert ((Z.of_nat (length l) <=? i)%Z = false) as -> by (apply Z.leb_gt; lia).
  simpl. rewrite (nth_error_nth' l d) by lia. reflexivity.
Qed.

Lemma getitem_back {A : Type} (l : list A) (i : Z) (d : A) :
  (- Z.of_nat (length l) <= i < 0)%Z ->
  getitem l i = Return (nth (Z.to_nat (i + Z.of_nat (length l))) l d).
Proof.
  intros H. unfold getitem.
  assert ((i <? 0)%Z = true) as -> by (apply Z.ltb_lt; lia).
  assert ((i + Z.of_nat (length l) <? 0)%Z = false) as -> by (apply Z.ltb_ge; lia).
  assert ((Z.of_nat (length l) <=? i + Z.of_nat (length l))%Z = false) as ->
      by (apply Z.leb_gt; lia).
  simpl. rewrite (nth_error_nth' l d) by lia. reflexivity.
Qed.

Lemma getitem_outside {A : Type} (l : list A) (i : Z) :
  (i < - Z.of_nat (length l) \/ Z.of_nat (length l) <= i)%Z ->
  getitem l i = Throw IndexError.
Proof.
  intros H. unfold getitem.
  destruct (Z.ltb_spec i 0).
  - assert ((i + Z.of_nat (length l) <? 0)%Z = true) as -> by (apply Z.ltb_lt; lia).
    reflexivity.
  - assert ((Z.of_nat (length l) <=? i)%Z = true) as -> by (apply Z.leb_le; lia).
    now rewrite orb_true_r.
Qed.

Lemma flat_map_nothing {A B : Type} (f : A -> list B) (l : list A) :
  (forall x, In x l -> f x = []) -> flat_map f l = [].
Proof.
  induction l as [|x l IH]; intros H; simpl; [reflexivity|].
  rewrite (H x (or_introl eq_refl)), IH; [reflexivity|].
  intros y Hy. apply H. now right.
Qed.

(** Consecutive positions select a stretch of the list. *)
Lemma select_stretch {A : Type} (l : list A) (a n : nat) :
  flat_map (fun k => match nth_error l (a + k) with Some x => [x] | None => [] end)
           (seq 0 n)
  = firstn n (skipn a l).
Proof.
  revert l. induction a as [|a IHa]; intros l.
  - cbn [skipn Nat.add]. revert l. induction n as [|n IHn]; intros l; [reflexivity|].
    change (seq 0 (S n)) with (0%nat :: seq 1 n). rewrite <- seq_shift.
    cbn [flat_map]. rewrite flat_map_concat_map, map_map, <- flat_map_concat_map.
    destruct l as [|x l]; cbn [nth_error app firstn].
    + apply flat_map_nothing. intros k _. reflexivity.
    + f_equal. apply IHn.
  - destruct l as [|x l]; cbn [skipn].
    + rewrite firstn_nil. apply flat_map_nothing. intros k _.
      now destruct (a + k)%nat.
    + apply IHa.
Qed.

Lemma select_forward {A : Type} (l : list A) (a count : Z) :
  (0 <= a)%Z -> (0 <= count)%Z ->
  select l a 1 count = firstn (Z.to_nat count) (skipn (Z.to_nat a) l).
Proof.
  intros Ha Hc. unfold select. rewrite <- select_stretch.
  apply flat_map_ext. intros k. now replace (Z.to_nat (a + Z.of_nat k * 1)) with (Z.to_nat a + k)%nat by lia.
Qed.

(** Positions counted down from the last select the list in reverse. *)
Lemma select_backward {A : Type} (l : list A) :
  select l (Z.of_nat (length l) - 1) (-1) (Z.of_nat (length l)) = rev l.
Proof.
  unfold select. rewrite Nat2Z.id.
  induction l as [|x l IH] using rev_ind; [reflexivity|].
  rewrite rev_unit, length_app, Nat.add_1_r.
  change (seq 0 (S (length l))) with (0%nat :: seq 1 (length l)).
  rewrite <- seq_shift. cbn [flat_map].
  replace (Z.to_nat (Z.of_nat (S (length l)) - 1 + Z.of_nat 0 * -1)) with (length l) by lia.
  rewrite nth_error_app2, Nat.sub_diag by lia. cbn [nth_error app]. f_equal.
  rewrite <- IH, flat_map_concat_map, map_map, <- flat_map_concat_map.
  rewrite !flat_map_concat_map. f_equal. apply map_ext_in.
  intros k Hk. apply in_seq in Hk.
  replace (Z.to_nat (Z.of_nat (S (length l)) - 1 + Z.of_nat (S k) * -1))
    with (Z.to_nat (Z.of_nat (length l) - 1 + Z.of_nat k * -1)) by lia.
  rewrite nth_error_app1 by lia. reflexivity.
Qed.

Lemma adjust_forward (len k : Z) :
  (0 <= len)%Z -> (0 <= adjust len 1 k <= len)%Z.
Proof.
  intros H. unfold adjust. cbn [Z.ltb Z.compare].
  destruct (Z.ltb_spec k 0); [destruct (Z.ltb_spec (k + len) 0) | destruct (Z.leb_spec len k)];
    lia.
Qed.

Lemma shortcut_at (c : list np.float64) (name : string) (p : nat) :
  String.length name = 1%nat ->
  find Vector.shortcut_names name = Z.of_nat p ->
  Vector.__getattr__ (Vector.mk c) name
  = match nth_error c p with
    | Some x => Return x
    | None => Throw (AttributeError name)
    end.
Proof.
  intros Hlen Hfind. unfold Vector.__getattr__. cbn [Vector._components].
  rewrite Hlen, Hfind. cbn [Nat.eqb].
  assert ((0 <=? Z.of_nat p)%Z = true) as -> by (apply Z.leb_le; lia). cbn [andb].
  destruct (Nat.lt_ge_cases p (length c)) as [L|G].
  - assert ((Z.of_nat p <? Z.of_nat (length c))%Z = true) as -> by (apply Z.ltb_lt; lia).
    rewrite (getitem_front c (Z.of_nat p) np.NaN) by lia.
    rewrite Nat2Z.id, (nth_error_nth' c np.NaN L). reflexivity.
  - assert ((Z.of_nat p <? Z.of_nat (length c))%Z = false) as -> by (apply Z.ltb_ge; lia).
    apply nth_error_None in G. now rewrite G.
Qed.

End VectorIndex.

(** X11.  With an integer between the brackets a vector answers the
    component at that position, counted from the end when the integer is
    negative, and fails with [IndexError] outside [-len, len); anything that
    is neither an integer nor a slice is a [TypeError]. *)
Theorem vector_getitem_integer :
  forall (self : Vector.t) (i : Z),
    let n := Z.of_nat (Vector.__len__ self) in
    ((0 <= i < n)%Z ->
     Vector.__getitem__ self (Vector.Integral i)
     = interfaces.Return (Vector.Component (nth (Z.to_nat i) (Vector._components self) np.NaN)))
    /\ ((- n <= i < 0)%Z ->
        Vector.__getitem__ self (Vector.Integral i)
        = interfaces.Return
            (Vector.Component (nth (Z.to_nat (i + n)) (Vector._components self) np.NaN)))
    /\ ((i < - n \/ n <= i)%Z ->
        Vector.__getitem__ self (Vector.Integral i) = interfaces.Throw interfaces.IndexError)
    /\ Vector.__getitem__ self Vector.Other = interfaces.Throw interfaces.TypeError.
Proof.
  intros self i n. unfold n, Vector.__len__, Vector.__getitem__. repeat apply conj.
  - intros H. now rewrite (getitem_front _ i np.NaN H).
  - intros H. now rewrite (getitem_back _ i np.NaN H).
  - intros H. now rewrite (getitem_outside _ i H).
  - reflexivity.
Qed.

Lemma vector_getitem_integer_witness :
  Vector.__getitem__ (Vector.mk [np.Fin 3; np.Fin 4; np.Fin 5]) (Vector.Integral (-1))
  = interfaces.Return (Vector.Component (np.Fin 5))
  /\ Vector.__getitem__ (Vector.mk [np.Fin 3; np.Fin 4; np.Fin 5]) (Vector.Integral 3)
     = interfaces.Throw interfaces.IndexError.
Proof.
  destruct (vector_getitem_integer (Vector.mk [np.Fin 3; np.Fin 4; np.Fin 5]) (-1))
    as [_ [H2 _]].
  destruct (vector_getitem_integer (Vector.mk [np.Fin 3; np.Fin 4; np.Fin 5]) 3)
    as [_ [_ [H3 _]]].
  split.
  - rewrite H2 by (simpl; lia). reflexivity.
  - apply H3. simpl. lia.
Defined.


(** X13.  The shortcut names read the first four components: [v.x], [v.y],
    [v.z] and [v.t] answer the components 0 to 3 where the vector has them
    and fail with [AttributeError] where it is shorter, as every other name
    does. *)
Theorem vector_shortcut_names :
  forall (self : Vector.t),
    let shortcut name pos :=
      Vector.__getattr__ self name
      = match nth_error (Vector._components self) pos with
        | Some c => interfaces.Return c
        | None => interfaces.Throw (interfaces.AttributeError name)
        end in
    shortcut "x" 0%nat /\ shortcut "y" 1%nat /\ shortcut "z" 2%nat /\ shortcut "t" 3%nat
    /\ forall name,
         ~ In name ["x"; "y"; "z"; "t"] ->
         Vector.__getattr__ self name = interfaces.Throw (interfaces.AttributeError name).
Proof.
  intros [c]. cbv zeta. cbn [Vector._components].
  repeat apply conj; try (apply shortcut_at; reflexivity).
  intros name Hname. unfold Vector.__getattr__. cbn [Vector._components].
  destruct name as [|ch [|ch' rest]]; try reflexivity.
  cbn [String.length Nat.eqb].
  assert (interfaces.find Vector.shortcut_names (String ch "") = (-1)%Z) as ->.
  { unfold interfaces.find, Vector.shortcut_names. simpl.
      destruct (Ascii.ascii_dec ch "x"%char) as [->|_]; [exfalso; apply Hname; simpl; tauto|].
      destruct (Ascii.ascii_dec ch "y"%char) as [->|_]; [exfalso; apply Hname; simpl; tauto|].
      destruct (Ascii.ascii_dec ch "z"%char) as [->|_]; [exfalso; apply Hname; simpl; tauto|].
      destruct (Ascii.ascii_dec ch "t"%char) as [->|_]; [exfalso; apply Hname; simpl; tauto|].
    reflexivity. }
  reflexivity.
Qed.

Lemma vector_shortcut_names_witness :
  Vector.__getattr__ (Vector.mk [np.Fin 3; np.Fin 4]) "w"
  = interfaces.Throw (interfaces.AttributeError "w").
Proof.
  destruct (vector_shortcut_names (Vector.mk [np.Fin 3; np.Fin 4])) as [_ [_ [_ [_ H]]]].
  apply H. simpl. intros [E|[E|[E|[E|[]]]]]; discriminate.
Defined.

(** * More properties of the vector-space notebook *)

(** ** Rows of a frame made of an array *)

Section RowsOfFrames.

Lemma nth_of_columns (rows : list (list np.float64)) (i j : nat) :
  nth i (map (fun row => nth j row np.NaN) rows) np.NaN = nth j (nth i rows []) np.NaN.
Proof.
  revert i. induction rows as [|r rows IH]; intros [|i]; simpl; auto; now destruct j.
Qed.

Lemma map_seq_nth {A : Type} (l : list A) (d : A) :
  map (fun i => nth i l d) (seq 0 (length l)) = l.
Proof.
  induction l as [|x l IH]; [reflexivity|].
  cbn [length]. change (seq 0 (S (length l))) with (0%nat :: seq 1 (length l)).
  rewrite <- seq_shift. cbn [map nth]. rewrite map_map. cbn [nth]. now rewrite IH.
Qed.

Lemma map_fst_combine {A B C : Type} (f : A -> C) (a : list A) (b : list B) :
  length a = length b -> map (fun p => f (fst p)) (combine a b) = map f a.
Proof.
  revert b. induction a as [|x a IH]; intros [|y b] H; simpl in *; try discriminate;
    [reflexivity|]. f_equal. apply IH. lia.
Qed.

(** Row [i] of the frame made of the points [P] is the point [i]. *)
Lemma row_of_points (d : nat) (P : list (list R)) (D : pd.DataFrame) (i : nat) :
  pd.from_array (points d P) (column_names (points d P)) = Ok D ->
  Forall (fun p => length p = d) P -> (i < length P)%nat ->
  pd.row D i = numeric_vector (nth i P []).
Proof.
  unfold pd.from_array. rewrite length_column_names, Nat.eqb_refl.
  intros HD Hdim Hi. inversion HD as [HD']. clear HD HD'.
  unfold pd.row. cbn [pd.columns]. rewrite map_map. cbn [snd fst points np.rows np.ncols].
  erewrite map_ext by (intros jn; rewrite nth_of_columns; reflexivity).
  rewrite (map_fst_combine
             (fun j => PyFloat (nth j (nth i (map (map np.Fin) P) []) np.NaN)))
    by (rewrite length_seq; symmetry; apply (length_column_names (points d P))).
  replace (nth i (map (map np.Fin) P) []) with (map np.Fin (nth i P []))
    by (symmetry; apply (map_nth (map np.Fin) P [] i)).
  rewrite Forall_forall in Hdim.
  assert (length (nth i P []) = d) as Hlen by (apply Hdim; now apply nth_In).
  rewrite <- (map_map (fun j => nth j (map np.Fin (nth i P [])) np.NaN) PyFloat).
  replace d with (length (map np.Fin (nth i P []))) by (rewrite length_map; exact Hlen).
  rewrite map_seq_nth. unfold numeric_vector. now rewrite map_map.
Qed.

Lemma mapM_ok {A B C : Type} (f : B -> result C) (h : A -> B) (g : A -> C) (l : list A) :
  (forall x, In x l -> f (h x) = Ok (g x)) -> mapM f (map h l) = Ok (map g l).
Proof.
  induction l as [|x l IH]; intros H; simpl; [reflexivity|].
  rewrite (H x (or_introl eq_refl)). simpl. rewrite IH; [reflexivity|].
  intros y Hy. apply H. now right.
Qed.

Lemma map_seq_nth_with {A B : Type} (F : A -> B) (l : list A) (d : A) :
  map (fun i => F (nth i l d)) (seq 0 (length l)) = map F l.
Proof.
  rewrite <- (map_map (fun i => nth i l d) F). now rewrite map_seq_nth.
Qed.

(** The radius column of that frame holds the norms of the points. *)
Lemma radii_of_points (d : nat) (P : list (list R)) (D : pd.DataFrame) :
  pd.from_array (points d P) (column_names (points d P)) = Ok D ->
  Forall (fun p => length p = d) P ->
  pd.apply_rows radius D = Ok (map (fun p => np.Fin (euclidean_norm p)) P).
Proof.
  intros HD Hdim. unfold pd.apply_rows.
  assert (pd.nrows D = length P) as Hn.
  { revert HD. unfold pd.from_array. rewrite length_column_names, Nat.eqb_refl.
    intros HD. inversion HD. cbn [pd.nrows points np.rows]. now rewrite length_map. }
  rewrite Hn.
  rewrite (mapM_ok radius (pd.row D) (fun i => np.Fin (euclidean_norm (nth i P [])))).
  - f_equal. apply (map_seq_nth_with (fun p => np.Fin (euclidean_norm p))).
  - intros i Hi. apply in_seq in Hi.
    rewrite (row_of_points d P D i HD Hdim) by lia. apply radius_numeric.
Qed.

Lemma frame_of_points (d : nat) (P : list (list R)) :
  exists D, pd.from_array (points d P) (column_names (points d P)) = Ok D
            /\ pd.contains "r" D = false.
Proof.
  destruct (from_array_columns (points d P)) as [D [HD [_ [_ Hc]]]]. now exists D.
Qed.

End RowsOfFrames.



(** ** Running the radius cell twice *)

Section Rerun.

Lemma assign_absent (name : string) (s : list np.float64)
  (cols : list (string * list np.float64)) :
  existsb (fun c => String.eqb (fst c) name) cols = false ->
  pd.assign name s cols = cols ++ [(name, s)].
Proof.
  induction cols as [|[k v] cols IH]; simpl; [reflexivity|].
  destruct (String.eqb k name); simpl; [discriminate|].
  intros H. now rewrite IH.
Qed.

Lemma sum_sq_snoc (p : list R) (r : R) : sum_sq (p ++ [r]) = sum_sq p + r * r.
Proof.
  induction p as [|x p IH]; simpl; [lra|]. rewrite IH. lra.
Qed.

Lemma norm_with_own_norm (p : list R) :
  euclidean_norm (p ++ [euclidean_norm p]) = sqrt 2 * euclidean_norm p.
Proof.
  unfold euclidean_norm. rewrite sum_sq_snoc.
  pose proof (sum_sq_nonneg p) as Hp. rewrite sqrt_sqrt by exact Hp.
  replace (sum_sq p + sum_sq p) with (2 * sum_sq p) by lra.
  apply sqrt_mult; lra.
Qed.

End Rerun.



(** ** The radii of the document-term matrix *)


(** ** What [kde_cdf_plot] can raise *)

Section KdeErrors.

Lemma radial_branch_errors (w : world) (s : list np.float64) (e : exn) :
  pd.lookup "r" (pd.columns (frame w)) = Some s ->
  fst (radial_branch w) = Raise e -> e = ValueError.
Proof.
  intros Hr. unfold radial_branch, seq_bind at 1, df at 1.
  unfold seq_bind at 1, lift at 1, pd.getitem. rewrite Hr.
  unfold series_plot_hist, ax_hist.
  unfold seq_bind, lift, draw, ret.
  destruct (histogram.histogram (pd.dropna s) (Z.of_nat (length s))) as [ce|e'] eqn:Hh.
  - cbn [fst snd frame canvas].
    destruct (builtins.max s) as [m|e'] eqn:Hm; cbn [fst].
    + discriminate.
    + intros E. inversion E; subst. now apply max_error in Hm.
  - cbn [fst]. intros E. inversion E; subst. now apply histogram_error in Hh.
Qed.

Lemma plot_body_errors (norm vol : bool) (w : world) (s : list np.float64) (e : exn) :
  pd.lookup "r" (pd.columns (frame w)) = Some s ->
  fst (plot_body norm vol w) = Raise e ->
  e = ValueError \/ (vol = true /\ e = NotImplementedError vol_msg).
Proof.
  intros Hr. destruct vol.
  - rewrite (plot_body_volume norm w s Hr). cbn [fst]. intros E. inversion E. now right.
  - unfold plot_body, seq_bind at 1, draw at 1. unfold seq_bind at 1, df at 1.
    unfold seq_bind at 1, lift at 1, pd.getitem. cbn [frame canvas]. rewrite Hr.
    unfold seq_bind at 1, draw at 1. unfold seq_bind at 1, draw at 1.
    unfold seq_bind at 1, draw at 1. cbn [frame canvas].
    unfold seq_bind at 1.
    match goal with
    | |- context [radial_branch ?w1] =>
        pose proof (radial_branch_errors w1 s) as Hrb;
        destruct (radial_branch w1) as [[xlab|e'] w2]
    end.
    + cbn [fst]. discriminate.
    + cbn [fst]. intros E. inversion E; subst. left. apply Hrb; [exact Hr | reflexivity].
Qed.

End KdeErrors.

Lemma kde_errors (norm vol : bool) (w : world) (e : exn) :
  pd.contains "r" (frame w) = true ->
  fst (kde_cdf_plot norm vol w) = Raise e ->
  e = ValueError \/ (vol = true /\ e = NotImplementedError vol_msg).
Proof.
  intros Hc. rewrite kde_with_r by exact Hc.
  destruct (lookup_contains _ _ Hc) as [s Hr].
  destruct norm.
  - destruct s as [|y s].
    + unfold seq_bind. rewrite (normalize_r_empty w Hr). cbn [fst].
      intros E. inversion E. now left.
    + unfold seq_bind. rewrite (normalize_r_run w y s Hr).
      apply plot_body_errors with (s := normalized (y :: s)).
      cbn [frame pd.setitem pd.columns]. apply lookup_assign.
  - unfold seq_bind, ret. now apply plot_body_errors with (s := s).
Qed.

(** X17.  On a data frame with an 'r' column none of the lookups of 'r'
    after the assertion fails, not even after the column has been
    overwritten by the normalisation: [kde_cdf_plot] never ends in
    [KeyError]; and it ends in [NotImplementedError] only with [vol] on. *)
Theorem kde_cdf_plot_lookups_never_fail :
  forall (norm vol : bool) (w : world),
    pd.contains "r" (frame w) = true ->
    fst (kde_cdf_plot norm vol w) <> Raise KeyError
    /\ (forall msg, fst (kde_cdf_plot norm vol w) = Raise (NotImplementedError msg) ->
                    vol = true).
Proof.
  intros norm vol w Hc. split.
  - intros E. destruct (kde_errors norm vol w KeyError Hc E) as [H|[_ H]]; discriminate.
  - intros msg E.
    destruct (kde_errors norm vol w _ Hc E) as [H|[H _]]; [discriminate | exact H].
Qed.

Lemma kde_cdf_plot_lookups_never_fail_witness :
  fst (kde_cdf_plot true false (blank two_points)) <> Raise KeyError.
Proof.
  apply (proj1 (kde_cdf_plot_lookups_never_fail true false (blank two_points) eq_refl)).
Defined.

(** ** Normalising twice *)

Section Renormalise.

Lemma assign_twice (name : string) (s s' : list np.float64)
  (cols : list (string * list np.float64)) :
  pd.assign name s' (pd.assign name s cols) = pd.assign name s' cols.
Proof.
  induction cols as [|[k v] cols IH]; simpl.
  - now rewrite String.eqb_refl.
  - destruct (String.eqb k name) eqn:E; simpl; rewrite E; [reflexivity | now rewrite IH].
Qed.

(** The quotients by the greatest radius have 1 for their greatest. *)
Lemma greatest_of_quotients (a : list R) :
  a <> [] -> Forall (fun r => 0 <= r) a -> 0 < greatest a ->
  greatest (map (fun r => r / greatest a) a) = 1.
Proof.
  intros Hne Hpos Hm. set (m := greatest a) in *.
  destruct (greatest_bounds a Hne) as [Hin Hle]. fold m in Hin, Hle.
  assert (map (fun r => r / m) a <> []) as Hqne by (destruct a; [contradiction | discriminate]).
  destruct (greatest_bounds _ Hqne) as [Hgin Hgle].
  apply Rle_antisym.
  - apply in_map_iff in Hgin. destruct Hgin as [r [<- Hr]].
    rewrite Forall_forall in Hle. specialize (Hle r Hr).
    apply (Rmult_le_reg_r m); [exact Hm|].
    unfold Rdiv. rewrite Rmult_assoc, Rinv_l by lra. lra.
  - rewrite Forall_forall in Hgle. apply Hgle.
    replace 1 with (m / m) by (field; lra).
    apply (in_map (fun r => r / m)). exact Hin.
Qed.

Lemma normalized_finite (x : R) (rs : list R) :
  greatest (x :: rs) <> 0 ->
  normalized (map np.Fin (x :: rs))
  = map np.Fin (map (fun r => r / greatest (x :: rs)) (x :: rs)).
Proof.
  intros Hm. change (map np.Fin (x :: rs)) with (np.Fin x :: map np.Fin rs).
  unfold normalized. rewrite max_from_finite.
  change (np.Fin x :: map np.Fin rs) with (map np.Fin (x :: rs)).
  rewrite div_finite by exact Hm. reflexivity.
Qed.

End Renormalise.

(** X18.  Normalising is harmless when repeated: after a call in
    normalisation mode on non-negative finite radii with a positive
    greatest, a second call in normalisation mode leaves the data frame as
    the first call left it. *)
Theorem normalisation_twice_is_once :
  forall (vol1 vol2 : bool) (w : world) (x : R) (rs : list R),
    pd.lookup "r" (pd.columns (frame w)) = Some (map np.Fin (x :: rs)) ->
    Forall (fun r => 0 <= r) (x :: rs) ->
    0 < greatest (x :: rs) ->
    let w1 := snd (kde_cdf_plot true vol1 w) in
    frame (snd (kde_cdf_plot true vol2 w1)) = frame w1
    /\ frame w1
       = pd.setitem "r" (map np.Fin (map (fun r => r / greatest (x :: rs)) (x :: rs)))
                    (frame w).
Proof.
  intros vol1 vol2 w x rs Hr Hpos Hm w1.
  assert (x :: rs <> []) as Hne by discriminate.
  set (m := greatest (x :: rs)) in *.
  set (a := map (fun r => r / m) (x :: rs)).
  assert (frame w1 = pd.setitem "r" (map np.Fin a) (frame w)) as Hw1.
  { unfold w1. cbn [map] in Hr.
    rewrite (kde_frame_norm vol1 w (np.Fin x) (map np.Fin rs) Hr).
    change (np.Fin x :: map np.Fin rs) with (map np.Fin (x :: rs)).
    rewrite normalized_finite by (fold m; lra). reflexivity. }
  split; [|exact Hw1].
  assert (pd.lookup "r" (pd.columns (frame w1)) = Some (map np.Fin a)) as Hr1
      by (rewrite Hw1; cbn [pd.setitem pd.columns]; apply lookup_assign).
  assert (greatest a = 1) as Hg by (apply greatest_of_quotients; assumption).
  unfold a in Hr1 at 1. cbn [map] in Hr1.
  rewrite (kde_frame_norm vol2 w1 _ _ Hr1).
  change (np.Fin (x / m) :: map np.Fin (map (fun r => r / m) rs))
    with (map np.Fin (x / m :: map (fun r => r / m) rs)).
  rewrite normalized_finite
    by (change (x / m :: map (fun r => r / m) rs) with a; lra).
  change (x / m :: map (fun r => r / m) rs) with a. rewrite Hg.
  replace (map (fun r => r / 1) a) with a
    by (rewrite <- (map_id a) at 1; apply map_ext; intros r; lra).
  rewrite Hw1. unfold pd.setitem. cbn [pd.columns pd.nrows]. now rewrite assign_twice.
Qed.

Lemma normalisation_twice_is_once_witness :
  frame (snd (kde_cdf_plot true false (snd (kde_cdf_plot true false (blank two_points)))))
  = frame (snd (kde_cdf_plot true false (blank two_points))).
Proof.
  assert (Forall (fun r => 0 <= r) [5; 2]) as Hpos by (repeat constructor; lra).
  assert (0 < greatest [5; 2]) as Hm by (unfold greatest; min_max).
  exact (proj1 (normalisation_twice_is_once false false (blank two_points) 5 [2]
                  eq_refl Hpos Hm)).
Defined.

(** ** From the blob adapter to the profile *)

(** X19.  The frame with radii that [make_blob_df] builds of at least one
    point of finite coordinates passes the assertion of [kde_cdf_plot], and
    a call in normal mode goes through to the end: the KDE subplot is fed
    the points' norms, the cumulative histogram is drawn of the same norms
    and the frame is left unchanged. *)
Theorem blob_frame_feeds_profile :
  forall (G : Type)
         (make_blobs : G -> nat -> nat -> nat -> R * R -> result (np.ndarray * list nat))
         (g : G) (n d k : nat) (box : R * R) (p : list R) (P : list (list R)) (y : list nat),
    make_blobs g n d k box = Ok (points d (p :: P), y) ->
    Forall (fun q => length q = d) (p :: P) ->
    exists X_df X_df_no_r,
      make_blob_df make_blobs g n d k box = Ok (points d (p :: P), X_df, X_df_no_r, y)
      /\ pd.contains "r" X_df = true
      /\ kde_cdf_plot false false (blank X_df)
         = (Ok tt,
            mk_world X_df
              (radial_commands X_df (map euclidean_norm (p :: P)) "radial distance")).
Proof.
  intros G make_blobs g n d k box p P y Hxy Hdim.
  destruct (frame_of_points d (p :: P)) as [D [HD Hc]].
  pose proof (radii_of_points d (p :: P) D HD Hdim) as Hr.
  set (norms := map (fun q => np.Fin (euclidean_norm q)) (p :: P)) in *.
  assert (pd.lookup "r" (pd.columns (pd.setitem "r" norms D))
          = Some (map np.Fin (euclidean_norm p :: map euclidean_norm P))) as Hl.
  { cbn [pd.setitem pd.columns]. rewrite lookup_assign. unfold norms.
    now rewrite <- (map_map euclidean_norm np.Fin). }
  exists (pd.setitem "r" norms D), D. repeat apply conj.
  - unfold make_blob_df. rewrite Hxy. cbn [Py.bind fst snd]. rewrite HD.
    cbn [Py.bind]. unfold pd.deepcopy. now rewrite Hr.
  - eapply contains_lookup. exact Hl.
  - rewrite kde_with_r by (eapply contains_lookup; exact Hl).
    unfold seq_bind at 1, ret.
    now rewrite (plot_body_radial false (blank (pd.setitem "r" norms D))
                   (euclidean_norm p) (map euclidean_norm P) Hl).
Qed.

Lemma blob_frame_feeds_profile_witness :
  exists X_df X_df_no_r,
    make_blob_df (fun (_ : unit) (_ _ _ : nat) (_ : R * R) =>
                    Ok (points 2 [[3; 4]; [0; 2]], [0; 1]%nat))
                 tt 2 2 2 (-10, 10)
    = Ok (points 2 [[3; 4]; [0; 2]], X_df, X_df_no_r, [0; 1]%nat)
    /\ fst (kde_cdf_plot false false (blank X_df)) = Ok tt.
Proof.
  assert (Forall (fun q : list R => length q = 2%nat) [[3; 4]; [0; 2]]) as Hdim
      by (repeat constructor).
  destruct (blob_frame_feeds_profile unit
              (fun _ _ _ _ _ => Ok (points 2 [[3; 4]; [0; 2]], [0; 1]%nat))
              tt 2 2 2 (-10, 10) [3; 4] [[0; 2]] [0; 1]%nat eq_refl Hdim)
    as [X_df [X_df_no_r [H1 [_ H3]]]].
  exists X_df, X_df_no_r. split; [exact H1|]. now rewrite H3.
Defined.

(** ** Where the radius vanishes *)

(** X20.  On finite coordinates [radius] is 0 at the origin and nowhere
    else. *)
Theorem radius_zero_iff_origin :
  forall v : list R,
    radius (numeric_vector v) = Ok (np.Fin 0) <-> Forall (fun x => x = 0) v.
Proof.
  intros v. rewrite radius_numeric, <- sum_sq_zero. unfold euclidean_norm.
  pose proof (sum_sq_nonneg v) as Hn. split; intros H.
  - injection H as H0. now apply sqrt_eq_0.
  - now rewrite H, sqrt_0.
Qed.

Lemma radius_zero_iff_origin_witness :
  Forall (fun x => x = 0) [0; 0].
Proof.
  apply (proj1 (radius_zero_iff_origin [0; 0])).
  rewrite radius_numeric. unfold euclidean_norm. simpl.
  replace (0 * 0 + (0 * 0 + 0)) with 0 by lra. now rewrite sqrt_0.
Defined.

(** ** The histogram and the order of the points *)

Section PointOrder.

Import histogram.

Lemma distance_sym (p q : list R) : distance p q = distance q p.
Proof.
  unfold distance, euclidean_norm. f_equal.
  revert q. induction p as [|x p IH]; intros [|y q]; simpl; try reflexivity.
  rewrite IH. lra.
Qed.

Lemma pairwise_perm (P P' : list (list R)) :
  Permutation P P' -> Permutation (pairwise P) (pairwise P').
Proof.
  induction 1 as [|p l l' Hl IH|p q l|l1 l2 l3 _ IH1 _ IH2]; simpl.
  - constructor.
  - apply Permutation_app; [now apply Permutation_map | exact IH].
  - rewrite (distance_sym q p). constructor.
    rewrite !app_assoc. apply Permutation_app_tail. apply Permutation_app_comm.
  - now rewrite IH1.
Qed.

Lemma amin_in (x : R) (l : list R) : In (amin x l) (x :: l).
Proof.
  unfold amin. revert x. induction l as [|y l IH]; intros x; simpl; [now left|].
  destruct (IH (Rmin x y)) as [E|Hin].
  - unfold Rmin in E at 1. destruct (Rle_dec x y); [left | right; left]; exact E.
  - right. right. exact Hin.
Qed.

Lemma least_perm (a b : list R) : Permutation a b -> least a = least b.
Proof.
  intros H. destruct a as [|x a], b as [|y b]; try reflexivity.
  - apply Permutation_nil in H. discriminate.
  - apply Permutation_sym, Permutation_nil in H. discriminate.
  - unfold least. destruct (amin_le a x) as [Ha1 Ha2]. destruct (amin_le b y) as [Hb1 Hb2].
    assert (Forall (fun z => amin x a <= z) (x :: a)) as Ha by now constructor.
    assert (Forall (fun z => amin y b <= z) (y :: b)) as Hb by now constructor.
    rewrite Forall_forall in Ha, Hb. apply Rle_antisym.
    + apply Ha. apply (Permutation_in _ (Permutation_sym H)). apply amin_in.
    + apply Hb. apply (Permutation_in _ H). apply amin_in.
Qed.

Lemma greatest_perm (a b : list R) : Permutation a b -> greatest a = greatest b.
Proof.
  intros H. destruct a as [|x a], b as [|y b]; try reflexivity.
  - apply Permutation_nil in H. discriminate.
  - apply Permutation_sym, Permutation_nil in H. discriminate.
  - unfold greatest. destruct (amax_ge a x) as [Ha1 Ha2]. destruct (amax_ge b y) as [Hb1 Hb2].
    assert (Forall (fun z => z <= amax x a) (x :: a)) as Ha by now constructor.
    assert (Forall (fun z => z <= amax y b) (y :: b)) as Hb by now constructor.
    rewrite Forall_forall in Ha, Hb. apply Rle_antisym.
    + apply Hb. apply (Permutation_in _ H). apply amax_in.
    + apply Ha. apply (Permutation_in _ (Permutation_sym H)). apply amax_in.
Qed.

Lemma outer_edges_perm (a b : list R) :
  Permutation a b -> outer_edges a = outer_edges b.
Proof.
  intros H. pose proof (least_perm a b H) as Hl. pose proof (greatest_perm a b H) as Hg.
  unfold outer_edges. destruct a as [|x a], b as [|y b]; try reflexivity.
  - apply Permutation_nil in H. discriminate.
  - apply Permutation_sym, Permutation_nil in H. discriminate.
  - unfold least, greatest in Hl, Hg. now rewrite Hl, Hg.
Qed.

Lemma bincount_perm (idx idx' : list nat) (b : nat) :
  Permutation idx idx' -> Forall (fun k => (k < b)%nat) idx ->
  bincount idx b = bincount idx' b.
Proof.
  intros H Hidx.
  assert (Forall (fun k => (k < b)%nat) idx') as Hidx'
      by (eapply Permutation_Forall; eassumption).
  apply (nth_ext _ _ O O).
  - now rewrite !length_bincount.
  - intros n _. rewrite !nth_bincount.
    now apply (Permutation_count_occ Nat.eq_dec).
Qed.

End PointOrder.

(** X21.  The histogram does not depend on the order of the points: for
    finite points and at least one bin, [in_sample_dist] draws the same
    edges and the same counts for a data set and for any rearrangement of
    it. *)
Theorem in_sample_dist_ignores_point_order :
  forall (d : nat) (P P' : list (list R)) (bins : Z) (w : world),
    Permutation P P' -> (1 <= bins)%Z ->
    in_sample_dist (points d P) bins w = in_sample_dist (points d P') bins w.
Proof.
  intros d P P' bins w HP Hb.
  rewrite !in_sample_dist_run by exact Hb. cbv zeta.
  pose proof (pairwise_perm P P' HP) as HD.
  rewrite <- (outer_edges_perm _ _ HD).
  set (lo := fst (histogram.outer_edges (pairwise P))).
  set (hi := snd (histogram.outer_edges (pairwise P))).
  rewrite (bincount_perm (map (histogram.bin_index lo hi (Z.to_nat bins)) (pairwise P))
             (map (histogram.bin_index lo hi (Z.to_nat bins)) (pairwise P'))).
  - reflexivity.
  - now apply Permutation_map.
  - destruct (outer_edges_spec (pairwise P) lo hi) as [Hlt Hall];
      [unfold lo, hi; now destruct (histogram.outer_edges (pairwise P))|].
    rewrite Forall_map. eapply Forall_impl; [|exact Hall]. cbv beta.
    intros x Hx. apply bin_index_lt; [lia | exact Hlt | exact Hx].
Qed.

Lemma in_sample_dist_ignores_point_order_witness :
  in_sample_dist (points 1 [[0]; [1]; [2]; [3]]) 3 (blank no_rows)
  = in_sample_dist (points 1 [[1]; [0]; [2]; [3]]) 3 (blank no_rows).
Proof.
  apply in_sample_dist_ignores_point_order; [apply perm_swap | lia].
Defined.
